(** * swlm: the MasterStack layout manager

    A shallow embedding of [src/managers/MasterStackLayoutManager.py].

    The manager keeps one master window identifier and a [collections.deque]
    of stack identifiers (index 0 is the bottom of the stack, the last index
    is the top), and drives the compositor through [self.con.command(...)].
    Every method is embedded as a computation in a small monad that threads
    the manager object, collects the command strings handed to the sink in
    order, and propagates Python exceptions. *)

From stdpp Require Import base list strings.
From Stdlib Require Import ZArith Lia DecimalString.

Local Open Scope Z_scope.

(** ** Containers of the compositor tree

    What the manager reads of an [i3ipc] container: [id], [type],
    [floating], the result of the [workspace()] method (the number of the
    workspace the container resolves to, if any) and the child [nodes]. *)

#[local] Set Warnings "-register-all".

Inductive Con : Type :=
  MkCon {
    con_id : Z;
    con_type : string;
    con_floating : option string;
    con_workspace : option Z;
    con_nodes : list Con
  }.

(** Python's [needle in hay] on strings. *)
Fixpoint str_in (needle hay : string) : bool :=
  String.prefix needle hay ||
  match hay with
  | EmptyString => false
  | String _ rest => str_in needle rest
  end.

(** ** The state of a manager object *)

Record Manager : Type :=
  MkManager {
    masterId : Z;
    stackIds : list Z;
    masterWidth : option Z;
    stackLayout : option string
  }.

Definition with_masterId (v : Z) (s : Manager) : Manager :=
  MkManager v (stackIds s) (masterWidth s) (stackLayout s).

Definition with_stackIds (l : list Z) (s : Manager) : Manager :=
  MkManager (masterId s) l (masterWidth s) (stackLayout s).

(** ** Exceptions, outcomes and the method monad *)

Inductive Exn : Type := IndexError | ValueError.

Inductive Outcome (A : Type) : Type :=
| Returned (a : A)
| Raised (e : Exn).
Arguments Returned {A} a.
Arguments Raised {A} e.

(** A method run: how it ended, the object it left behind (an exception
    does not roll the object back), and the commands it issued. *)
Definition Run (A : Type) : Type := Outcome A * Manager * list string.

Definition M (A : Type) : Type := Manager -> Run A.

Definition ret {A} (a : A) : M A := fun s => (Returned a, s, []).

Definition bind {A B} (m : M A) (k : A -> M B) : M B :=
  fun s =>
    match m s with
    | (Returned a, s1, c1) =>
        match k a s1 with
        | (o, s2, c2) => (o, s2, c1 ++ c2)
        end
    | (Raised e, s1, c1) => (Raised e, s1, c1)
    end.

Notation "x <- m ;; k" := (bind m (fun x => k))
  (at level 90, m at next level, right associativity).
Notation "m ;;; k" := (bind m (fun _ => k))
  (at level 90, right associativity).

Definition raise {A} (e : Exn) : M A := fun s => (Raised e, s, []).

(** [try: body / except BaseException: pass] *)
Definition try_pass (body : M unit) : M unit :=
  fun s =>
    match body s with
    | (Returned _, s1, c1) => (Returned tt, s1, c1)
    | (Raised _, s1, c1) => (Returned tt, s1, c1)
    end.

Definition getMasterId : M Z := fun s => (Returned (masterId s), s, []).
Definition setMasterId (v : Z) : M unit :=
  fun s => (Returned tt, with_masterId v s, []).
Definition getStackIds : M (list Z) := fun s => (Returned (stackIds s), s, []).
Definition setStackIds (l : list Z) : M unit :=
  fun s => (Returned tt, with_stackIds l s, []).
Definition getMasterWidth : M (option Z) :=
  fun s => (Returned (masterWidth s), s, []).
Definition getStackLayout : M (option string) :=
  fun s => (Returned (stackLayout s), s, []).

(** [self.con.command(c)] *)
Definition command (c : string) : M unit := fun s => (Returned tt, s, [c]).

(** The final object, the outcome and the commands of a run. *)
Definition final {A} (r : Run A) : Manager := snd (fst r).
Definition outcome {A} (r : Run A) : Outcome A := fst (fst r).
Definition issued {A} (r : Run A) : list string := snd r.

Definition returns {A} (r : Run A) : bool :=
  match outcome r with Returned _ => true | Raised _ => false end.

(** ** [collections.deque] *)

Module Deque.

(** Split off the last element. *)
Fixpoint unsnoc (l : list Z) : option (list Z * Z) :=
  match l with
  | [] => None
  | x :: r =>
      match unsnoc r with
      | None => Some ([], x)
      | Some (init, y) => Some (x :: init, y)
      end
  end.

(** Drop the first occurrence of [v]. *)
Fixpoint remove_first (v : Z) (l : list Z) : option (list Z) :=
  match l with
  | [] => None
  | x :: r =>
      if x =? v then Some r
      else match remove_first v r with
           | None => None
           | Some r' => Some (x :: r')
           end
  end.

(** Python indexing: a negative index counts from the end; the result is
    the position when it is in range. *)
Definition position (l : list Z) (i : Z) : option nat :=
  let n := Z.of_nat (length l) in
  let j := if i <? 0 then i + n else i in
  if (j <? 0) || (n <=? j) then None else Some (Z.to_nat j).

(** [len(d)] *)
Definition len : M Z := l <- getStackIds ;; ret (Z.of_nat (length l)).

(** [d[i]] *)
Definition get (i : Z) : M Z :=
  l <- getStackIds ;;
  match position l i with
  | None => raise IndexError
  | Some k =>
      match l !! k with
      | Some x => ret x
      | None => raise IndexError
      end
  end.

(** [d[i] = v] *)
Definition set (i : Z) (v : Z) : M unit :=
  l <- getStackIds ;;
  match position l i with
  | None => raise IndexError
  | Some k => setStackIds (<[k := v]> l)
  end.

(** [d.append(v)] *)
Definition append (v : Z) : M unit :=
  l <- getStackIds ;; setStackIds (l ++ [v]).

(** [d.appendleft(v)] *)
Definition appendleft (v : Z) : M unit :=
  l <- getStackIds ;; setStackIds (v :: l).

(** [d.pop()] *)
Definition pop : M Z :=
  l <- getStackIds ;;
  match unsnoc l with
  | None => raise IndexError
  | Some (init, x) => setStackIds init ;;; ret x
  end.

(** [d.popleft()] *)
Definition popleft : M Z :=
  l <- getStackIds ;;
  match l with
  | [] => raise IndexError
  | x :: r => setStackIds r ;;; ret x
  end.

(** [d.remove(v)] *)
Definition remove (v : Z) : M unit :=
  l <- getStackIds ;;
  match remove_first v l with
  | None => raise ValueError
  | Some l' => setStackIds l'
  end.

(** [v in d] *)
Definition mem (v : Z) : M bool :=
  l <- getStackIds ;; ret (existsb (Z.eqb v) l).

End Deque.

(** ** Loops *)

(** [for x in xs: body(x)] where the body may [return] from the method:
    the body answers [true] when it returned. *)
Fixpoint for_return {A} (xs : list A) (body : A -> M bool) : M unit :=
  match xs with
  | [] => ret tt
  | x :: rest =>
      done <- body x ;;
      if done then ret tt else for_return rest body
  end.

(** [for x in xs: body(x)] without [return]. *)
Fixpoint for_each {A} (xs : list A) (body : A -> M unit) : M unit :=
  match xs with
  | [] => ret tt
  | x :: rest => body x ;;; for_each rest body
  end.

(** [range(n)] *)
Definition range (n : Z) : list Z := map Z.of_nat (seq 0 (Z.to_nat n)).

(** ** Command strings *)

(** ["%d" % z] *)
Definition fmt_d (z : Z) : string := NilZero.string_of_int (Z.to_int z).

Definition cmd_mark (targetId : Z) : string :=
  "[con_id=" +:+ fmt_d targetId +:+ "] mark --add move_target".
Definition cmd_move_to_mark (moveId : Z) : string :=
  "[con_id=" +:+ fmt_d moveId +:+ "] move container to mark move_target".
Definition cmd_unmark (targetId : Z) : string :=
  "[con_id=" +:+ fmt_d targetId +:+ "] unmark move_target".
Definition cmd_focus (windowId : Z) : string :=
  "[con_id=" +:+ fmt_d windowId +:+ "] focus".
Definition cmd_swap (a b : Z) : string :=
  "[con_id=" +:+ fmt_d a +:+ "] swap container with con_id " +:+ fmt_d b.
Definition cmd_resize (windowId width : Z) : string :=
  "[con_id=" +:+ fmt_d windowId +:+ "] resize set " +:+ fmt_d width +:+ " 0 ppt".
Definition cmd_split_vertical (windowId : Z) : string :=
  "[con_id=" +:+ fmt_d windowId +:+ "] split vertical".
Definition cmd_split_horizontal (windowId : Z) : string :=
  "[con_id=" +:+ fmt_d windowId +:+ "] split horizontal".
Definition cmd_layout (windowId : Z) (layout : string) : string :=
  "[con_id=" +:+ fmt_d windowId +:+ "] layout " +:+ layout.
Definition cmd_move_left : string := "move left".
Definition cmd_move_up : string := "move up".

(** ** The manager's methods *)

Module MasterStack.

(** [__init__] before reconciliation: [masterId = 0], an empty deque, and
    the two options that shape commands. *)
Definition init (width : option Z) (layout : option string) : Manager :=
  MkManager 0 [] width layout.

(** [isExcluded]; the argument is [None] for Python's [None]. *)
Definition isExcluded (window : option Con) : bool :=
  match window with
  | None => true
  | Some w =>
      if negb (String.eqb (con_type w) "con") then true
      else match con_workspace w with
           | None => true
           | Some _ =>
               match con_floating w with
               | Some f => str_in "on" f
               | None => false
               end
           end
  end.

Definition setMasterWidth : M unit :=
  width <- getMasterWidth ;;
  match width with
  | Some w => m <- getMasterId ;; command (cmd_resize m w)
  | None => ret tt
  end.

Definition moveWindow (moveId targetId : Z) : M unit :=
  command (cmd_mark targetId) ;;;
  command (cmd_move_to_mark moveId) ;;;
  command (cmd_unmark targetId).

Definition pushWindow (windowId : Z) : M unit :=
  m <- getMasterId ;;
  if m =? 0 then
    setMasterId windowId
  else
    n <- Deque.len ;;
    if n =? 0 then
      (m <- getMasterId ;; moveWindow windowId m) ;;;
      (m <- getMasterId ;; Deque.append m) ;;;
      command cmd_move_left ;;;
      setMasterId windowId ;;;
      (* the log line reads stackIds[0] *)
      _ <- Deque.get 0 ;;
      setMasterWidth
    else
      targetId <- Deque.get (-1) ;;
      moveWindow windowId targetId ;;;
      command (cmd_focus windowId) ;;;
      command cmd_move_up ;;;
      prevMasterId <- getMasterId ;;
      command (cmd_swap windowId prevMasterId) ;;;
      (m <- getMasterId ;; Deque.append m) ;;;
      setMasterId windowId ;;;
      setMasterWidth.

Definition popWindow : M unit :=
  n <- Deque.len ;;
  if n =? 0 then
    setMasterId 0
  else
    (top <- Deque.pop ;; setMasterId top) ;;;
    (m <- getMasterId ;; command (cmd_focus m)) ;;;
    n' <- Deque.len ;;
    if negb (n' =? 0) then
      command cmd_move_left ;;; setMasterWidth
    else ret tt.

Definition setStackLayout : M unit :=
  n <- Deque.len ;;
  if negb (n =? 0) then
    configured <- getStackLayout ;;
    (* [self.stackLayout or "splitv"] *)
    let layout := match configured with
                  | Some l => if String.eqb l "" then "splitv" else l
                  | None => "splitv"
                  end in
    bottom <- Deque.get 0 ;;
    command (cmd_split_vertical bottom) ;;;
    command (cmd_layout bottom layout)
  else
    m <- getMasterId ;;
    command (cmd_split_horizontal m) ;;;
    m <- getMasterId ;;
    command (cmd_layout m "splith").

(** The first loop of [arrangeExistingLayout]: the identifiers collected
    into [untracked], in order. *)
Definition collectUntracked (workspace : Con) : list Z :=
  flat_map
    (fun node =>
       if (length (con_nodes node) =? 0)%nat then
         if isExcluded (Some node) then [] else [con_id node]
       else
         flat_map
           (fun conNode : Con =>
              if isExcluded (Some node) then [] else [con_id node])
           (con_nodes node))
    (con_nodes workspace).

(** The second loop of [arrangeExistingLayout] and the call that follows
    it. *)
Definition pushUntracked (untracked : list Z) : M unit :=
  for_each untracked
    (fun windowId =>
       m <- getMasterId ;;
       inStack <- Deque.mem windowId ;;
       if negb (windowId =? m) && negb inStack then
         setStackLayout ;;;
         command (cmd_focus windowId) ;;;
         pushWindow windowId
       else ret tt) ;;;
  setStackLayout.

(** [arrangeExistingLayout]; [workspace] is the value of
    [utils.findFocused(self.con).workspace()]. *)
Definition arrangeExistingLayout (workspace : Con) : M unit :=
  let untracked := collectUntracked workspace in
  pushUntracked untracked.

Definition removeWindow (windowId : Z) : M unit :=
  m <- getMasterId ;;
  if m =? windowId then popWindow
  else try_pass (Deque.remove windowId).

(** [focusedWindow] is the value of [utils.findFocused(self.con)]. *)
Definition moveUp (focusedWindow : option Con) : M unit :=
  match focusedWindow with
  | None => ret tt
  | Some fw =>
      n <- Deque.len ;;
      swapTop <- (if n <? 2 then ret true
                  else top <- Deque.get (-1) ;; ret (con_id fw =? top)) ;;
      if swapTop then
        targetId <- Deque.pop ;;
        (m <- getMasterId ;; command (cmd_swap targetId m)) ;;;
        (m <- getMasterId ;; Deque.append m) ;;;
        setMasterId targetId
      else
        n <- Deque.len ;;
        for_return (range n)
          (fun i =>
             x <- Deque.get i ;;
             if x =? con_id fw then
               (above <- Deque.get (i + 1) ;;
                command (cmd_swap (con_id fw) above)) ;;;
               (above <- Deque.get (i + 1) ;; Deque.set i above) ;;;
               Deque.set (i + 1) (con_id fw) ;;;
               (* the log line reads stackIds[i] *)
               _ <- Deque.get i ;;
               ret true
             else ret false)
  end.

Definition moveDown (focusedWindow : option Con) : M unit :=
  n <- Deque.len ;;
  if n <? 2 then ret tt
  else
    match focusedWindow with
    | None => ret tt
    | Some fw =>
        bottom <- Deque.get 0 ;;
        if con_id fw =? bottom then ret tt
        else
          m <- getMasterId ;;
          if con_id fw =? m then
            (top <- Deque.get (-1) ;; command (cmd_swap (con_id fw) top)) ;;;
            (top <- Deque.pop ;; setMasterId top) ;;;
            Deque.append (con_id fw) ;;;
            (* the log line reads stackIds[-1] *)
            _ <- Deque.get (-1) ;;
            ret tt
          else
            n <- Deque.len ;;
            for_return (range n)
              (fun i =>
                 x <- Deque.get i ;;
                 if x =? con_id fw then
                   (below <- Deque.get (i - 1) ;;
                    command (cmd_swap (con_id fw) below)) ;;;
                   (below <- Deque.get (i - 1) ;; Deque.set i below) ;;;
                   Deque.set (i - 1) (con_id fw) ;;;
                   (* the log line reads stackIds[i] *)
                   _ <- Deque.get i ;;
                   ret true
                 else ret false)
    end.

Definition rotateCCW : M unit :=
  n <- Deque.len ;;
  if n <? 2 then ret tt
  else
    newMasterId <- Deque.pop ;;
    prevMasterId <- getMasterId ;;
    bottomId <- Deque.get 0 ;;
    command (cmd_swap newMasterId prevMasterId) ;;;
    moveWindow prevMasterId bottomId ;;;
    setMasterId newMasterId ;;;
    Deque.appendleft prevMasterId.

Definition rotateCW : M unit :=
  n <- Deque.len ;;
  if n <? 2 then ret tt
  else
    newMasterId <- Deque.popleft ;;
    prevMasterId <- getMasterId ;;
    topId <- Deque.get (-1) ;;
    command (cmd_swap newMasterId prevMasterId) ;;;
    moveWindow prevMasterId topId ;;;
    command (cmd_focus prevMasterId) ;;;
    command cmd_move_up ;;;
    command (cmd_focus newMasterId) ;;;
    setMasterId newMasterId ;;;
    Deque.append prevMasterId.

Definition swapMaster (focusedWindow : option Con) : M unit :=
  n <- Deque.len ;;
  if n =? 0 then ret tt
  else
    match focusedWindow with
    | None => ret tt
    | Some fw =>
        m <- getMasterId ;;
        if con_id fw =? m then
          targetId <- Deque.pop ;;
          (m <- getMasterId ;; command (cmd_swap targetId m)) ;;;
          (m <- getMasterId ;; Deque.append m) ;;;
          setMasterId targetId
        else
          n <- Deque.len ;;
          for_return (range n)
            (fun i =>
               x <- Deque.get i ;;
               if x =? con_id fw then
                 (m <- getMasterId ;; command (cmd_swap (con_id fw) m)) ;;;
                 (m <- getMasterId ;; command (cmd_focus m)) ;;;
                 (m <- getMasterId ;; Deque.set i m) ;;;
                 setMasterId (con_id fw) ;;;
                 ret true
               else ret false)
    end.

(** *** Notification handlers *)

(** [windowAdded]; the event is not read, the window is the focused one. *)
Definition windowAdded (focused : option Con) : M unit :=
  match focused with
  | Some newWindow =>
      if isExcluded focused then ret tt else pushWindow (con_id newWindow)
  | None => ret tt
  end.

(** [windowRemoved]; [containerId] is [event.container.id]. *)
Definition windowRemoved (containerId : Z) : M unit :=
  removeWindow containerId.

Definition windowFocused (focused : option Con) : M unit :=
  if isExcluded focused then ret tt else setStackLayout.

Definition onBinding (cmd : string) (focused : option Con) : M unit :=
  if String.eqb cmd "nop swlm move up" then moveUp focused
  else if String.eqb cmd "nop swlm move down" then moveDown focused
  else if String.eqb cmd "nop swlm rotate ccw"
          || String.eqb cmd "nop swlm move left" then rotateCCW
  else if String.eqb cmd "nop swlm rotate cw"
          || String.eqb cmd "nop swlm move right" then rotateCW
  else if String.eqb cmd "nop swlm swap master" then swapMaster focused
  else ret tt.

End MasterStack.

Import MasterStack.

(** *** Operations and notifications as data *)

(** The operations on the model that the handlers are built from. *)
Inductive Op : Type :=
| Push (windowId : Z)
| Remove (windowId : Z)
| Pop
| MoveUp (focused : option Con)
| MoveDown (focused : option Con)
| RotateCCW
| RotateCW
| SwapMaster (focused : option Con).

Definition perform (op : Op) : M unit :=
  match op with
  | Push windowId => pushWindow windowId
  | Remove windowId => removeWindow windowId
  | Pop => popWindow
  | MoveUp focused => moveUp focused
  | MoveDown focused => moveDown focused
  | RotateCCW => rotateCCW
  | RotateCW => rotateCW
  | SwapMaster focused => swapMaster focused
  end.

(** The object after a sequence of operations; an operation that raises
    leaves the object as it was when the exception was thrown. *)
Definition after (ops : list Op) (s : Manager) : Manager :=
  fold_left (fun s op => final (perform op s)) ops s.

(** The notifications routed to a manager, each with what the handler reads
    from the compositor while it runs. *)
Inductive Notification : Type :=
| WindowAdded (focused : option Con)
| WindowRemoved (containerId : Z)
| WindowFocused (focused : option Con)
| Binding (cmd : string) (focused : option Con).

Definition handle (n : Notification) : M unit :=
  match n with
  | WindowAdded focused => windowAdded focused
  | WindowRemoved containerId => windowRemoved containerId
  | WindowFocused focused => windowFocused focused
  | Binding cmd focused => onBinding cmd focused
  end.

Definition after_notifications (ns : list Notification) (s : Manager) : Manager :=
  fold_left (fun s n => final (handle n s)) ns s.

(** A tiled leaf window with identifier [i] on workspace 1. *)
Definition window (i : Z) : Con := MkCon i "con" None (Some 1) [].

(** ** Reconciliation as the specification words it

    The first loop of [arrangeExistingLayout] with, in the nested branch,
    the child's exclusion status and the child's identifier.  This follows
    the specification, not the source; it is here to be compared with
    [collectUntracked]. *)
Definition collectUntracked_per_child (workspace : Con) : list Z :=
  flat_map
    (fun node =>
       if (length (con_nodes node) =? 0)%nat then
         if isExcluded (Some node) then [] else [con_id node]
       else
         flat_map
           (fun conNode : Con =>
              if isExcluded (Some conNode) then [] else [con_id conNode])
           (con_nodes node))
    (con_nodes workspace).

(** A workspace with one split container, 10, that holds the tiled
    windows 11 and 12. *)
Definition nested_workspace : Con :=
  MkCon 100 "workspace" None (Some 1)
    [MkCon 10 "con" None (Some 1) [window 11; window 12]].

(** A workspace with one tiled split container, 20, that holds a floating
    window, 21. *)
Definition floating_child_workspace : Con :=
  MkCon 100 "workspace" None (Some 1)
    [MkCon 20 "con" None (Some 1) [MkCon 21 "con" (Some "user_on") (Some 1) []]].

(** A workspace that holds the tiled windows 1, 2 and 3, no container
    between them and the workspace. *)
Definition tiled_workspace : Con :=
  MkCon 100 "workspace" None (Some 1) [window 1; window 2; window 3].

(** ** Predicates on the model *)

(** A non-empty stack has a master: 0 is the value of an empty master
    slot.  The first part says that the empty value is not in the stack
    either, which is what keeps the second part true across removals. *)
Definition stack_has_master (s : Manager) : Prop :=
  Forall (fun x => x <> 0) (stackIds s) /\
  (stackIds s <> [] -> masterId s <> 0).

(** Every identifier is in at most one position of master and stack. *)
Definition exclusive (s : Manager) : Prop := NoDup (masterId s :: stackIds s).

(** [s'] tracks the windows of [s], in some arrangement, under the same
    options. *)
Definition rearranged (s s' : Manager) : Prop :=
  masterId s' :: stackIds s' ≡ₚ masterId s :: stackIds s /\
  masterWidth s' = masterWidth s /\
  stackLayout s' = stackLayout s.

(** The window of a window-added notification is not tracked yet (or is
    excluded, or there is none). *)
Definition adds_untracked (n : Notification) (s : Manager) : Prop :=
  match n with
  | WindowAdded (Some c) =>
      isExcluded (Some c) = false ->
      con_id c <> masterId s /\ con_id c ∉ stackIds s
  | _ => True
  end.

(** The states a manager reaches from the empty model when every
    window-added notification carries an untracked window. *)
Inductive reachable_untracked (wd : option Z) (lay : option string) : Manager -> Prop :=
| reach_init : reachable_untracked wd lay (init wd lay)
| reach_step s n :
    reachable_untracked wd lay s ->
    adds_untracked n s ->
    reachable_untracked wd lay (final (handle n s)).

(** The tracked identifiers in the order the model keeps them: the stack
    from its bottom to its top, then the master when the slot is not
    empty. *)
Definition tracked (s : Manager) : list Z :=
  stackIds s ++ (if masterId s =? 0 then [] else [masterId s]).

(** * The dispatcher ([src/swlm.py])

    The module-level handlers that route compositor events to the manager
    of the focused workspace.  They work on two module-level dictionaries,
    [managers] and [workspaceWindows], both of a [dict] subclass whose
    [__missing__] answers [None]. *)

(** ** Python dictionaries, in insertion order *)

Module Dict.

(** [d[k]], with [__missing__] answering [None]. *)
Fixpoint get {V} (k : Z) (d : list (Z * V)) : option V :=
  match d with
  | [] => None
  | (k', v) :: rest => if k' =? k then Some v else get k rest
  end.

(** [k in d] *)
Definition mem {V} (k : Z) (d : list (Z * V)) : bool :=
  match get k d with Some _ => true | None => false end.

(** [d[k] = v]: an existing key keeps its place, a new one goes last. *)
Fixpoint set {V} (k : Z) (v : V) (d : list (Z * V)) : list (Z * V) :=
  match d with
  | [] => [(k, v)]
  | (k', v') :: rest =>
      if k' =? k then (k, v) :: rest else (k', v') :: set k v rest
  end.

(** The keys, as [for k in d] visits them. *)
Definition keys {V} (d : list (Z * V)) : list Z := map fst d.

End Dict.

(** Python's truth value of an optional list. *)
Definition truthy {A} (l : option (list A)) : bool :=
  match l with
  | Some (_ :: _) => true
  | _ => false
  end.

(** [s.replace(old, new)] for a non-empty [old]: every occurrence, from
    the left, without overlap.  [skip] counts the characters of a replaced
    occurrence that are still to be dropped. *)
Fixpoint replace_from (old new : string) (skip : nat) (s : string) : string :=
  match s with
  | EmptyString => EmptyString
  | String c rest =>
      match skip with
      | S k => replace_from old new k rest
      | O =>
          if String.prefix old s
          then new +:+ replace_from old new (String.length old - 1) rest
          else String c (replace_from old new 0 rest)
      end
  end.

Definition str_replace (old new s : string) : string := replace_from old new 0 s.

(** ** What the dispatcher reads *)

(** A workspace as the dispatcher reads one: [num], [ipc_data["output"]],
    and the container itself, whose [nodes] reconciliation walks. *)
Record Workspace : Type :=
  MkWorkspace {
    ws_num : Z;
    ws_output : string;
    ws_con : Con
  }.

(** The user options ([utils.getUserOptions()]). *)
Record Options : Type :=
  MkOptions {
    opt_excludes : option (list Z);
    opt_outputs : option (list string);
    opt_default : option string;
    opt_masterWidth : option Z;
    opt_stackLayout : option string
  }.

(** The state of the compositor as one handler sees it. *)
Record Env : Type :=
  MkEnv {
    (** [utils.findFocusedWorkspace(con)] *)
    focusedWorkspace : option Workspace;
    (** [utils.findFocused(con)] *)
    focused : option Con;
    (** [utils.findFocused(con).workspace()], when a window is focused *)
    windowWorkspace : option Workspace
  }.

(** What a handler of the dispatcher can raise: the two errors of using
    [None] as an object or as a container, the exceptions of the
    MasterStack manager, and whatever the Autotiling manager raises. *)
Inductive Error : Type :=
| AttributeError
| TypeError
| ManagerError (e : Exn)
| AutotilingError.

Inductive DOutcome (A : Type) : Type :=
| DReturned (a : A)
| DRaised (e : Error).
Arguments DReturned {A} a.
Arguments DRaised {A} e.

(** The classes [managers/AutotilingLayoutManager.py] and
    [managers/WorkspaceLayoutManager.py] are not among the sources.  The
    Autotiling manager is taken as it comes: a state, a constructor and
    the five methods the dispatcher calls, each over that state.  Of the
    base class, whose methods the specification gives as no-ops, only the
    class attribute [overridesMoveBinds] is left open. *)
Record Absent : Type :=
  MkAbsent {
    AutoState : Type;
    auto_shortName : string;
    auto_overridesMoveBinds : bool;
    auto_new : Env -> Workspace -> DOutcome AutoState * list string;
    auto_windowAdded : Env -> AutoState -> DOutcome unit * AutoState * list string;
    auto_windowRemoved : Env -> Z -> AutoState -> DOutcome unit * AutoState * list string;
    auto_windowFocused : Env -> AutoState -> DOutcome unit * AutoState * list string;
    auto_windowMoved : Env -> AutoState -> DOutcome unit * AutoState * list string;
    auto_onBinding : Env -> string -> AutoState -> DOutcome unit * AutoState * list string;
    base_overridesMoveBinds : bool
  }.

(** An Autotiling manager that does nothing, to run examples with. *)
Definition idle_autotiling : Absent :=
  MkAbsent unit "Autotiling" false
    (fun _ _ => (DReturned tt, []))
    (fun _ a => (DReturned tt, a, []))
    (fun _ _ a => (DReturned tt, a, []))
    (fun _ a => (DReturned tt, a, []))
    (fun _ a => (DReturned tt, a, []))
    (fun _ _ a => (DReturned tt, a, []))
    false.

(** Options that exclude nothing and name no default manager; workspace
    1 on output "eDP-1" holding the windows of [nested_workspace]; and the
    compositor with that workspace and window 11 focused. *)
Definition plain_options : Options := MkOptions None None None None None.

Definition workspace_one : Workspace := MkWorkspace 1 "eDP-1" nested_workspace.

Definition env_one : Env :=
  MkEnv (Some workspace_one) (Some (window 11)) (Some workspace_one).

Module Dispatcher.

Section Handlers.

Context (absent : Absent) (options : Options).

(** The objects held in [managers]. *)
Inductive LayoutManager : Type :=
| NoneManager
| MasterStackManager (s : Manager)
| AutotilingManager (a : AutoState absent).

(** The two module-level dictionaries. *)
Record Globals : Type :=
  MkGlobals {
    managers : list (Z * LayoutManager);
    workspaceWindows : list (Z * list Z)
  }.

Definition D (A : Type) : Type := Globals -> DOutcome A * Globals * list string.

Definition dret {A} (a : A) : D A := fun g => (DReturned a, g, []).

Definition dbind {A B} (m : D A) (k : A -> D B) : D B :=
  fun g =>
    match m g with
    | (DReturned a, g1, c1) =>
        match k a g1 with
        | (o, g2, c2) => (o, g2, c1 ++ c2)
        end
    | (DRaised e, g1, c1) => (DRaised e, g1, c1)
    end.

Definition draise {A} (e : Error) : D A := fun g => (DRaised e, g, []).

(** [con.command(c)] from the dispatcher. *)
Definition dcommand (c : string) : D unit := fun g => (DReturned tt, g, [c]).

Definition getManagers : D (list (Z * LayoutManager)) :=
  fun g => (DReturned (managers g), g, []).
Definition setManagers (d : list (Z * LayoutManager)) : D unit :=
  fun g => (DReturned tt, MkGlobals d (workspaceWindows g), []).
Definition getWindows : D (list (Z * list Z)) :=
  fun g => (DReturned (workspaceWindows g), g, []).
Definition setWindows (d : list (Z * list Z)) : D unit :=
  fun g => (DReturned tt, MkGlobals (managers g) d, []).

(** [try: body / except BaseException: pass] *)
Definition dtry_pass (body : D unit) : D unit :=
  fun g =>
    match body g with
    | (DReturned _, g1, c1) => (DReturned tt, g1, c1)
    | (DRaised _, g1, c1) => (DReturned tt, g1, c1)
    end.

(** A method run of the MasterStack manager, seen from the dispatcher. *)
Definition of_run (r : Run unit) : DOutcome unit * LayoutManager * list string :=
  match r with
  | (Returned _, s, c) => (DReturned tt, MasterStackManager s, c)
  | (Raised e, s, c) => (DRaised (ManagerError e), MasterStackManager s, c)
  end.

Definition of_auto (r : DOutcome unit * AutoState absent * list string)
  : DOutcome unit * LayoutManager * list string :=
  match r with
  | (o, a, c) => (o, AutotilingManager a, c)
  end.

(** [managers[num].method(...)]: the method runs on the object held under
    [num], which stays in the dictionary as the method leaves it; [None],
    the answer for a missing key, has no method. *)
Definition call (num : Z)
    (method : LayoutManager -> DOutcome unit * LayoutManager * list string) : D unit :=
  fun g =>
    match Dict.get num (managers g) with
    | None => (DRaised AttributeError, g, [])
    | Some o =>
        match method o with
        | (out, o', c) =>
            (out, MkGlobals (Dict.set num o' (managers g)) (workspaceWindows g), c)
        end
    end.

(** The methods of the three classes.  The base class is modelled from
    the specification: every method is a no-op; MasterStack inherits
    [windowMoved] from it. *)
Definition m_windowAdded (env : Env) (o : LayoutManager) :=
  match o with
  | NoneManager => (DReturned tt, NoneManager, [])
  | MasterStackManager s => of_run (windowAdded (focused env) s)
  | AutotilingManager a => of_auto (auto_windowAdded absent env a)
  end.

Definition m_windowRemoved (env : Env) (containerId : Z) (o : LayoutManager) :=
  match o with
  | NoneManager => (DReturned tt, NoneManager, [])
  | MasterStackManager s => of_run (windowRemoved containerId s)
  | AutotilingManager a => of_auto (auto_windowRemoved absent env containerId a)
  end.

Definition m_windowFocused (env : Env) (o : LayoutManager) :=
  match o with
  | NoneManager => (DReturned tt, NoneManager, [])
  | MasterStackManager s => of_run (windowFocused (focused env) s)
  | AutotilingManager a => of_auto (auto_windowFocused absent env a)
  end.

Definition m_onBinding (env : Env) (command : string) (o : LayoutManager) :=
  match o with
  | NoneManager => (DReturned tt, NoneManager, [])
  | MasterStackManager s => of_run (onBinding command (focused env) s)
  | AutotilingManager a => of_auto (auto_onBinding absent env command a)
  end.

(** The class attribute [overridesMoveBinds]. *)
Definition overridesMoveBinds (o : LayoutManager) : bool :=
  match o with
  | NoneManager => base_overridesMoveBinds absent
  | MasterStackManager _ => true
  | AutotilingManager _ => auto_overridesMoveBinds absent
  end.

(** [MasterStackLayoutManager(con, workspace, options)]: the empty model,
    then reconciliation over the workspace of the focused window.  With no
    focused window, or one without a workspace, reconciliation fails on
    [None] before it issues a command. *)
Definition newMasterStack (env : Env) : DOutcome LayoutManager * list string :=
  match focused env, windowWorkspace env with
  | Some _, Some ws =>
      match arrangeExistingLayout (ws_con ws)
              (init (opt_masterWidth options) (opt_stackLayout options)) with
      | (Returned _, s, c) => (DReturned (MasterStackManager s), c)
      | (Raised e, _, c) => (DRaised (ManagerError e), c)
      end
  | _, _ => (DRaised AttributeError, [])
  end.

Definition newAutotiling (env : Env) (workspace : Workspace)
  : DOutcome LayoutManager * list string :=
  match auto_new absent env workspace with
  | (DReturned a, c) => (DReturned (AutotilingManager a), c)
  | (DRaised e, c) => (DRaised e, c)
  end.

(** [managers[num] = Class(con, workspace, options)] *)
Definition install (num : Z) (made : DOutcome LayoutManager * list string) : D unit :=
  fun g =>
    match made with
    | (DReturned o, c) =>
        (DReturned tt, MkGlobals (Dict.set num o (managers g)) (workspaceWindows g), c)
    | (DRaised e, c) => (DRaised e, g, c)
    end.

(** [isExcluded(workspace)] of the dispatcher. *)
Definition isExcludedWorkspace (workspace : option Workspace) : bool :=
  match workspace with
  | None => true
  | Some w =>
      if truthy (opt_excludes options)
         && existsb (Z.eqb (ws_num w)) (default [] (opt_excludes options))
      then true
      else if truthy (opt_outputs options)
              && negb (existsb (String.eqb (ws_output w))
                         (default [] (opt_outputs options)))
      then true
      else false
  end.

Notation "x <~ m ;; k" := (dbind m (fun x => k))
  (at level 90, m at next level, right associativity).
Notation "m ;;~ k" := (dbind m (fun _ => k))
  (at level 90, right associativity).

(** [workspaceWindows[num].append(x)] *)
Definition windows_append (num x : Z) : D unit :=
  w <~ getWindows ;;
  match Dict.get num w with
  | None => draise AttributeError
  | Some l => setWindows (Dict.set num (l ++ [x]) w)
  end.

(** [workspaceWindows[num].remove(x)] *)
Definition windows_remove (num x : Z) : D unit :=
  w <~ getWindows ;;
  match Dict.get num w with
  | None => draise AttributeError
  | Some l =>
      match Deque.remove_first x l with
      | None => draise (ManagerError ValueError)
      | Some l' => setWindows (Dict.set num l' w)
      end
  end.

Definition windowCreated (env : Env) : D unit :=
  match focusedWorkspace env with
  | None => dret tt
  | Some workspace =>
      if isExcludedWorkspace (Some workspace) then dret tt
      else
        m <~ getManagers ;;
        if negb (Dict.mem (ws_num workspace) m) then dret tt
        else
          match focused env with
          | Some window => windows_append (ws_num workspace) (con_id window)
          | None => dret tt
          end ;;~
          call (ws_num workspace) (m_windowAdded env)
  end.

Definition windowFocused (env : Env) : D unit :=
  match focusedWorkspace env with
  | None => dret tt
  | Some workspace =>
      if isExcludedWorkspace (Some workspace) then dret tt
      else
        m <~ getManagers ;;
        if negb (Dict.mem (ws_num workspace) m) then dret tt
        else call (ws_num workspace) (m_windowFocused env)
  end.

(** [containerId] is [event.container.id]. *)
Definition windowClosed (env : Env) (containerId : Z) : D unit :=
  match focusedWorkspace env with
  | None => dret tt
  | Some workspace =>
      if isExcludedWorkspace (Some workspace) then dret tt
      else
        m <~ getManagers ;;
        if negb (Dict.mem (ws_num workspace) m) then dret tt
        else
          dtry_pass (windows_remove (ws_num workspace) containerId) ;;~
          call (ws_num workspace) (m_windowRemoved env containerId)
  end.

(** [command] is [event.ipc_data["binding"]["command"].strip()]. *)
Definition onBinding (env : Env) (command : string) : D unit :=
  if negb (str_in "nop swlm" command) then dret tt
  else
    match focusedWorkspace env with
    | None => dret tt
    | Some workspace =>
        if isExcludedWorkspace (Some workspace) then dret tt
        else
          let num := ws_num workspace in
          (* [A and B] evaluates B only when A holds *)
          passes <~ (if str_in "nop swlm move" command
                     then m <~ getManagers ;;
                          match Dict.get num m with
                          | None => draise AttributeError
                          | Some o => dret (overridesMoveBinds o)
                          end
                     else dret false) ;;
          if passes then call num (m_onBinding env command)
          else if str_in "nop swlm move " command then
            dcommand (str_replace "nop swlm " "" command)
          else if String.eqb command "nop swlm layout none" then
            install num (DReturned NoneManager, [])
          else if String.eqb command "nop swlm layout MasterStack" then
            install num (newMasterStack env)
          else if String.eqb command "nop swlm layout Autotiling" then
            install num (newAutotiling env workspace)
          else
            m <~ getManagers ;;
            if negb (Dict.mem num m) then dret tt
            else call num (m_onBinding env command)
    end.

(** [setWorkspaceLayoutManager(con, workspace)] *)
Definition setWorkspaceLayoutManager (env : Env) (workspace : Workspace) : D unit :=
  let num := ws_num workspace in
  m <~ getManagers ;;
  (if negb (Dict.mem num m) then
     if bool_decide (opt_default options = Some (auto_shortName absent)) then
       install num (newAutotiling env workspace)
     else if bool_decide (opt_default options = Some "MasterStack") then
       install num (newMasterStack env)
     else dret tt
   else dret tt) ;;~
  w <~ getWindows ;;
  if negb (Dict.mem num w) then setWindows (Dict.set num [] w) else dret tt.

Definition onWorkspace (env : Env) : D unit :=
  match focusedWorkspace env with
  | None => draise AttributeError
  | Some workspace => setWorkspaceLayoutManager env workspace
  end.

(** The globals and the commands of a handler run. *)
Definition dfinal {A} (r : DOutcome A * Globals * list string) : Globals := snd (fst r).
Definition doutcome {A} (r : DOutcome A * Globals * list string) : DOutcome A := fst (fst r).
Definition dissued {A} (r : DOutcome A * Globals * list string) : list string := snd r.

(** The two dictionaries when the module is loaded. *)
Definition no_globals : Globals := MkGlobals [] [].

(** The entries under key [k], in both dictionaries, are in [g'] what
    they are in [g]. *)
Definition untouched (k : Z) (g g' : Globals) : Prop :=
  Dict.get k (managers g') = Dict.get k (managers g) /\
  Dict.get k (workspaceWindows g') = Dict.get k (workspaceWindows g).

End Handlers.

End Dispatcher.

(** * Properties *)

(** ** Lists as deques *)

Lemma unsnoc_snoc (l : list Z) (x : Z) : Deque.unsnoc (l ++ [x]) = Some (l, x).
Proof.
  induction l as [|a l IH]; simpl; [done|]. by rewrite IH.
Qed.

Lemma snoc_cases (l : list Z) : l = [] \/ exists init x, l = init ++ [x].
Proof.
  induction l as [|init x _] using rev_ind; [by left|right; eauto].
Qed.

Lemma remove_first_absent (v : Z) (l : list Z) :
  v ∉ l -> Deque.remove_first v l = None.
Proof.
  induction l as [|a l IH]; simpl; intros Hn; [done|].
  apply not_elem_of_cons in Hn as [Hne Hn].
  destruct (Z.eqb_spec a v); [congruence|]. by rewrite IH.
Qed.

Lemma remove_first_split (v : Z) (pre post : list Z) :
  v ∉ pre -> Deque.remove_first v (pre ++ v :: post) = Some (pre ++ post).
Proof.
  induction pre as [|a pre IH]; simpl; intros Hn.
  - by rewrite Z.eqb_refl.
  - apply not_elem_of_cons in Hn as [Hne Hn].
    destruct (Z.eqb_spec a v); [congruence|]. by rewrite IH.
Qed.

Lemma position_nat (l : list Z) (k : nat) :
  (k < length l)%nat -> Deque.position l (Z.of_nat k) = Some k.
Proof.
  intros Hk. unfold Deque.position.
  destruct (Z.ltb_spec (Z.of_nat k) 0); [lia|].
  destruct (Z.ltb_spec (Z.of_nat k) 0); [lia|].
  destruct (Z.leb_spec (Z.of_nat (length l)) (Z.of_nat k)); [lia|].
  simpl. by rewrite Nat2Z.id.
Qed.

Lemma position_last (l : list Z) (x : Z) :
  Deque.position (l ++ [x]) (-1) = Some (length l).
Proof.
  unfold Deque.position. rewrite length_app. simpl length.
  change (-1 <? 0) with true. cbv iota.
  destruct (Z.ltb_spec (-1 + Z.of_nat (length l + 1)) 0); [lia|].
  destruct (Z.leb_spec (Z.of_nat (length l + 1)) (-1 + Z.of_nat (length l + 1))); [lia|].
  simpl. f_equal. lia.
Qed.

Lemma length_snoc_eqb (l : list Z) (x : Z) :
  (Z.of_nat (length (l ++ [x])) =? 0) = false.
Proof. apply Z.eqb_neq. rewrite length_app. simpl. lia. Qed.

Lemma length_two_ltb (pre post : list Z) (x y : Z) :
  (Z.of_nat (length (pre ++ x :: y :: post)) <? 2) = false.
Proof. apply Z.ltb_ge. rewrite length_app. simpl. lia. Qed.

Lemma lookup_last (l : list Z) (x : Z) : (l ++ [x]) !! length l = Some x.
Proof. by rewrite list_lookup_middle. Qed.

(** ** Running the methods *)

#[local] Arguments Deque.position : simpl never.
#[local] Arguments Deque.unsnoc : simpl never.
#[local] Arguments Deque.remove_first : simpl never.

Section Runs.

Context {A B : Type}.

Lemma bind_run (m : M A) (k : A -> M B) s a s1 c1 o s2 c2 :
  m s = (Returned a, s1, c1) ->
  k a s1 = (o, s2, c2) ->
  bind m k s = (o, s2, c1 ++ c2).
Proof. intros Hm Hk. unfold bind. by rewrite Hm, Hk. Qed.

End Runs.

Section DequeRuns.

Variables (m : Z) (wd : option Z) (lay : option string).

Lemma get_last_run (init : list Z) (x : Z) :
  Deque.get (-1) (MkManager m (init ++ [x]) wd lay) =
  (Returned x, MkManager m (init ++ [x]) wd lay, []).
Proof.
  unfold Deque.get, bind, getStackIds; cbn [stackIds].
  by rewrite position_last, lookup_last.
Qed.

Lemma get_nat_run (l : list Z) (k : nat) (x : Z) :
  l !! k = Some x ->
  Deque.get (Z.of_nat k) (MkManager m l wd lay) =
  (Returned x, MkManager m l wd lay, []).
Proof.
  intros Hk. unfold Deque.get, bind, getStackIds; cbn [stackIds].
  rewrite position_nat by (by eapply lookup_lt_Some). by rewrite Hk.
Qed.

Lemma get_first_run (x : Z) (l : list Z) :
  Deque.get 0 (MkManager m (x :: l) wd lay) =
  (Returned x, MkManager m (x :: l) wd lay, []).
Proof. by apply (get_nat_run (x :: l) 0 x). Qed.

Lemma get_middle_run (pre post : list Z) (x : Z) :
  Deque.get (Z.of_nat (length pre)) (MkManager m (pre ++ x :: post) wd lay) =
  (Returned x, MkManager m (pre ++ x :: post) wd lay, []).
Proof. apply get_nat_run, list_lookup_middle. done. Qed.

Lemma get_middle_succ_run (pre post : list Z) (x y : Z) :
  Deque.get (Z.of_nat (length pre) + 1)
    (MkManager m (pre ++ x :: y :: post) wd lay) =
  (Returned y, MkManager m (pre ++ x :: y :: post) wd lay, []).
Proof.
  replace (Z.of_nat (length pre) + 1) with (Z.of_nat (S (length pre))) by lia.
  apply get_nat_run. rewrite (cons_middle x), app_assoc.
  apply list_lookup_middle. rewrite length_app. simpl. lia.
Qed.

Lemma get_after_run (pre post : list Z) (x y : Z) :
  Deque.get (Z.of_nat (S (length pre)))
    (MkManager m (pre ++ x :: y :: post) wd lay) =
  (Returned y, MkManager m (pre ++ x :: y :: post) wd lay, []).
Proof.
  replace (Z.of_nat (S (length pre))) with (Z.of_nat (length pre) + 1) by lia.
  apply get_middle_succ_run.
Qed.

Lemma get_before_run (pre post : list Z) (x : Z) :
  Deque.get (Z.of_nat (S (length pre)) - 1)
    (MkManager m (pre ++ x :: post) wd lay) =
  (Returned x, MkManager m (pre ++ x :: post) wd lay, []).
Proof.
  replace (Z.of_nat (S (length pre)) - 1) with (Z.of_nat (length pre)) by lia.
  apply get_middle_run.
Qed.

Lemma set_nat_run (l : list Z) (k : nat) (v : Z) :
  (k < length l)%nat ->
  Deque.set (Z.of_nat k) v (MkManager m l wd lay) =
  (Returned tt, MkManager m (<[k := v]> l) wd lay, []).
Proof.
  intros Hk. unfold Deque.set, bind, getStackIds; cbn [stackIds].
  by rewrite position_nat.
Qed.

Lemma set_middle_run (pre post : list Z) (x v : Z) :
  Deque.set (Z.of_nat (length pre)) v (MkManager m (pre ++ x :: post) wd lay) =
  (Returned tt, MkManager m (pre ++ v :: post) wd lay, []).
Proof.
  rewrite set_nat_run by (rewrite length_app; simpl; lia).
  rewrite insert_app_r_alt by lia. by rewrite Nat.sub_diag.
Qed.

Lemma set_middle_succ_run (pre post : list Z) (x y v : Z) :
  Deque.set (Z.of_nat (length pre) + 1) v
    (MkManager m (pre ++ x :: y :: post) wd lay) =
  (Returned tt, MkManager m (pre ++ x :: v :: post) wd lay, []).
Proof.
  replace (Z.of_nat (length pre) + 1) with (Z.of_nat (length (pre ++ [x])))
    by (rewrite length_app; simpl; lia).
  rewrite (cons_middle x pre (y :: post)), app_assoc.
  rewrite set_middle_run. by rewrite <- app_assoc.
Qed.

Lemma set_after_run (pre post : list Z) (x y v : Z) :
  Deque.set (Z.of_nat (S (length pre))) v
    (MkManager m (pre ++ x :: y :: post) wd lay) =
  (Returned tt, MkManager m (pre ++ x :: v :: post) wd lay, []).
Proof.
  replace (Z.of_nat (S (length pre))) with (Z.of_nat (length pre) + 1) by lia.
  apply set_middle_succ_run.
Qed.

Lemma set_before_run (pre post : list Z) (x v : Z) :
  Deque.set (Z.of_nat (S (length pre)) - 1) v
    (MkManager m (pre ++ x :: post) wd lay) =
  (Returned tt, MkManager m (pre ++ v :: post) wd lay, []).
Proof.
  replace (Z.of_nat (S (length pre)) - 1) with (Z.of_nat (length pre)) by lia.
  apply set_middle_run.
Qed.

Lemma pop_run (init : list Z) (x : Z) :
  Deque.pop (MkManager m (init ++ [x]) wd lay) =
  (Returned x, MkManager m init wd lay, []).
Proof.
  unfold Deque.pop, bind, getStackIds; cbn [stackIds].
  by rewrite unsnoc_snoc.
Qed.

Lemma remove_present_run (pre post : list Z) (v : Z) :
  v ∉ pre ->
  Deque.remove v (MkManager m (pre ++ v :: post) wd lay) =
  (Returned tt, MkManager m (pre ++ post) wd lay, []).
Proof.
  intros Hv. unfold Deque.remove, bind, getStackIds; cbn [stackIds].
  by rewrite remove_first_split.
Qed.

Lemma remove_absent_run (l : list Z) (v : Z) :
  v ∉ l ->
  Deque.remove v (MkManager m l wd lay) =
  (Raised ValueError, MkManager m l wd lay, []).
Proof.
  intros Hv. unfold Deque.remove, bind, getStackIds; cbn [stackIds].
  by rewrite remove_first_absent.
Qed.

Lemma setMasterWidth_run (l : list Z) :
  setMasterWidth (MkManager m l wd lay) =
  (Returned tt, MkManager m l wd lay,
   match wd with Some v => [cmd_resize m v] | None => [] end).
Proof. unfold setMasterWidth. by destruct wd. Qed.

End DequeRuns.

(** Step through a sequence of binds whose parts run without branching. *)
Ltac prim_run :=
  first
    [ apply get_last_run
    | apply get_first_run
    | apply pop_run
    | apply setMasterWidth_run
    | apply get_middle_run
    | apply get_middle_succ_run
    | apply get_after_run
    | apply get_before_run
    | apply set_middle_run
    | apply set_middle_succ_run
    | apply set_after_run
    | apply set_before_run
    | reflexivity ].

Ltac norm :=
  cbn beta;
  cbn [masterId stackIds masterWidth stackLayout with_masterId with_stackIds].

Ltac steps :=
  lazymatch goal with
  | |- bind _ _ _ = _ => eapply bind_run; [steps | norm; steps]
  | |- (if _ then _ else _) _ = _ => progress cbv iota; steps
  | |- _ => prim_run
  end.

Ltac step := eapply bind_run; [steps | norm].

(** Prove a run with the command list it states: run it with the list left
    open, then compare. *)
Ltac with_commands :=
  lazymatch goal with
  | |- ?lhs = (?o, ?s', ?c) =>
      let H := fresh in
      assert (exists c', lhs = (o, s', c') /\ c' = c) as (? & H & <-);
      [eexists; split; [|shelve] | exact H]
  end.

Lemma pushWindow_run (windowId m : Z) (l : list Z) wd lay :
  exists cmds,
    pushWindow windowId (MkManager m l wd lay) =
    (Returned tt,
     MkManager windowId (if m =? 0 then l else l ++ [m]) wd lay,
     cmds).
Proof.
  unfold pushWindow, moveWindow.
  destruct (m =? 0) eqn:Hm.
  { eexists. step. rewrite Hm. reflexivity. }
  destruct (snoc_cases l) as [->|(init & x & ->)]; eexists.
  - step. rewrite Hm. step. change (Z.of_nat (length []) =? 0) with true. steps.
  - step. rewrite Hm. step. rewrite length_snoc_eqb. steps.
Qed.

(** ** Loops that scan the stack for the focused window *)

Lemma bind_silent {A B} (m : M A) (k : A -> M B) s a s1 :
  m s = (Returned a, s1, []) -> bind m k s = k a s1.
Proof.
  intros Hm. unfold bind. rewrite Hm. by destruct (k a s1) as [[o s2] c2].
Qed.

Lemma for_return_hit {A} (x : A) (rest : list A) (body : A -> M bool) s s' c :
  body x s = (Returned true, s', c) ->
  for_return (x :: rest) body s = (Returned tt, s', c).
Proof.
  intros Hb. cbn [for_return]. unfold bind at 1. rewrite Hb.
  cbn. by rewrite app_nil_r.
Qed.

Lemma for_return_miss {A} (x : A) (rest : list A) (body : A -> M bool) s :
  body x s = (Returned false, s, []) ->
  for_return (x :: rest) body s = for_return rest body s.
Proof. intros Hb. cbn [for_return]. by rewrite (bind_silent _ _ _ _ _ Hb). Qed.

Lemma range_length (l : list Z) :
  range (Z.of_nat (length l)) = map Z.of_nat (seq 0 (length l)).
Proof. unfold range. by rewrite Nat2Z.id. Qed.

Section Scan.

Variables (f : Z) (hit : Z -> M bool).
Variables (m : Z) (wd : option Z) (lay : option string).

#[local] Abbreviation body :=
  (fun i : Z => x <- Deque.get i ;; if x =? f then hit i else ret false).

Lemma scan_from_found (post : list Z) s' c :
  forall pre skipped,
    f ∉ pre ->
    hit (Z.of_nat (length (skipped ++ pre)))
      (MkManager m (skipped ++ pre ++ f :: post) wd lay) = (Returned true, s', c) ->
    for_return (map Z.of_nat (seq (length skipped) (length (pre ++ f :: post))))
      body (MkManager m (skipped ++ pre ++ f :: post) wd lay) =
    (Returned tt, s', c).
Proof.
  induction pre as [|a pre IH]; intros skipped Hf Hhit.
  - rewrite app_nil_r in Hhit. cbn [app length seq map].
    apply for_return_hit.
    rewrite (bind_silent _ _ _ _ _ (get_middle_run _ _ _ _ _ _)).
    by rewrite Z.eqb_refl.
  - apply not_elem_of_cons in Hf as [Hne Hf].
    cbn [app length seq map]. rewrite for_return_miss.
    + specialize (IH (skipped ++ [a]) Hf).
      assert (length (skipped ++ [a]) = S (length skipped)) as E
        by (rewrite length_app; simpl; lia).
      assert ((skipped ++ [a]) ++ pre = skipped ++ a :: pre) as E1
        by (by rewrite <- app_assoc).
      assert ((skipped ++ [a]) ++ pre ++ f :: post
              = skipped ++ (a :: pre) ++ f :: post) as E2
        by (by rewrite <- app_assoc).
      rewrite E, E1, E2 in IH. by apply IH.
    + rewrite (bind_silent _ _ _ _ _ (get_middle_run _ _ _ _ _ _)).
      by destruct (Z.eqb_spec a f).
Qed.

Lemma scan_from_absent :
  forall rest skipped,
    f ∉ rest ->
    for_return (map Z.of_nat (seq (length skipped) (length rest)))
      body (MkManager m (skipped ++ rest) wd lay) =
    (Returned tt, MkManager m (skipped ++ rest) wd lay, []).
Proof.
  induction rest as [|a rest IH]; intros skipped Hf; [done|].
  apply not_elem_of_cons in Hf as [Hne Hf].
  cbn [length seq map]. rewrite for_return_miss.
  - specialize (IH (skipped ++ [a]) Hf).
    assert (length (skipped ++ [a]) = S (length skipped)) as E
      by (rewrite length_app; simpl; lia).
    assert ((skipped ++ [a]) ++ rest = skipped ++ a :: rest) as E1
      by (by rewrite <- app_assoc).
    rewrite E, E1 in IH. by apply IH.
  - rewrite (bind_silent _ _ _ _ _ (get_middle_run _ _ _ _ _ _)).
    by destruct (Z.eqb_spec a f).
Qed.

(** The loop stops at the first position that holds [f] and runs the
    branch there. *)
Lemma scan_found (pre post : list Z) s' c :
  f ∉ pre ->
  hit (Z.of_nat (length pre)) (MkManager m (pre ++ f :: post) wd lay) =
    (Returned true, s', c) ->
  for_return (range (Z.of_nat (length (pre ++ f :: post))))
    body (MkManager m (pre ++ f :: post) wd lay) =
  (Returned tt, s', c).
Proof.
  intros Hf Hhit. rewrite range_length.
  by apply (scan_from_found post s' c pre []).
Qed.

(** The loop falls through when [f] is not in the stack. *)
Lemma scan_absent (l : list Z) :
  f ∉ l ->
  for_return (range (Z.of_nat (length l))) body (MkManager m l wd lay) =
  (Returned tt, MkManager m l wd lay, []).
Proof.
  intros Hf. rewrite range_length. by apply (scan_from_absent l []).
Qed.

End Scan.

(** ** What each method does to the object *)

Section Methods.

Variables (m : Z) (wd : option Z) (lay : option string).

Lemma get_top_run (l : list Z) (t : Z) :
  last l = Some t ->
  Deque.get (-1) (MkManager m l wd lay) = (Returned t, MkManager m l wd lay, []).
Proof.
  intros Hl. destruct (snoc_cases l) as [->|(init & x & ->)]; [done|].
  rewrite last_snoc in Hl. injection Hl as ->. apply get_last_run.
Qed.

Lemma popWindow_empty :
  popWindow (MkManager m [] wd lay) = (Returned tt, MkManager 0 [] wd lay, []).
Proof. reflexivity. Qed.

Lemma popWindow_snoc (init : list Z) (x : Z) :
  exists cmds,
    popWindow (MkManager m (init ++ [x]) wd lay) =
    (Returned tt, MkManager x init wd lay, cmds).
Proof.
  unfold popWindow. destruct init as [|a init]; eexists.
  - reflexivity.
  - step. rewrite (length_snoc_eqb (a :: init) x).
    do 3 step. change (negb (Z.of_nat (length (a :: init)) =? 0)) with true.
    steps.
Qed.

Lemma removeWindow_master (l : list Z) :
  removeWindow m (MkManager m l wd lay) = popWindow (MkManager m l wd lay).
Proof.
  unfold removeWindow. rewrite (bind_silent _ _ _ m (MkManager m l wd lay)) by done.
  by rewrite Z.eqb_refl.
Qed.

Lemma removeWindow_stack (windowId : Z) (pre post : list Z) :
  m <> windowId -> windowId ∉ pre ->
  removeWindow windowId (MkManager m (pre ++ windowId :: post) wd lay) =
  (Returned tt, MkManager m (pre ++ post) wd lay, []).
Proof.
  intros Hm Hpre. unfold removeWindow.
  rewrite (bind_silent _ _ _ m (MkManager m (pre ++ windowId :: post) wd lay)) by done.
  destruct (Z.eqb_spec m windowId); [done|].
  unfold try_pass. by rewrite remove_present_run.
Qed.

Lemma removeWindow_untracked (windowId : Z) (l : list Z) :
  m <> windowId -> windowId ∉ l ->
  removeWindow windowId (MkManager m l wd lay) =
  (Returned tt, MkManager m l wd lay, []).
Proof.
  intros Hm Hl. unfold removeWindow.
  rewrite (bind_silent _ _ _ m (MkManager m l wd lay)) by done.
  destruct (Z.eqb_spec m windowId); [done|].
  unfold try_pass. by rewrite remove_absent_run.
Qed.

Lemma moveUp_none (l : list Z) :
  moveUp None (MkManager m l wd lay) = (Returned tt, MkManager m l wd lay, []).
Proof. reflexivity. Qed.

Lemma moveUp_empty (fw : Con) :
  moveUp (Some fw) (MkManager m [] wd lay) =
  (Raised IndexError, MkManager m [] wd lay, []).
Proof. reflexivity. Qed.

Lemma moveUp_top (fw : Con) (init : list Z) (x : Z) :
  init = [] \/ con_id fw = x ->
  moveUp (Some fw) (MkManager m (init ++ [x]) wd lay) =
  (Returned tt, MkManager x (init ++ [m]) wd lay, [cmd_swap x m]).
Proof.
  intros Hcase. unfold moveUp.
  destruct (Z.ltb_spec (Z.of_nat (length (init ++ [x]))) 2) as [Hlt|Hge];
    with_commands.
  - step. rewrite (proj2 (Z.ltb_lt _ _) Hlt). steps.
  - assert (con_id fw = x) as Hx.
    { destruct Hcase as [->|]; [simpl in Hge; lia|done]. }
    step. rewrite (proj2 (Z.ltb_ge _ _) Hge).
    step. rewrite Hx, Z.eqb_refl. steps.
  Unshelve. all: reflexivity.
Qed.

Lemma get_bottom_run (l : list Z) (b : Z) :
  head l = Some b ->
  Deque.get 0 (MkManager m l wd lay) = (Returned b, MkManager m l wd lay, []).
Proof. destruct l as [|a l]; [done|]. intros [= ->]. apply get_first_run. Qed.

Lemma moveUp_swap (fw : Con) (pre post : list Z) (y t : Z) :
  con_id fw ∉ pre ->
  last (y :: post) = Some t ->
  t <> con_id fw ->
  moveUp (Some fw) (MkManager m (pre ++ con_id fw :: y :: post) wd lay) =
  (Returned tt, MkManager m (pre ++ y :: con_id fw :: post) wd lay,
   [cmd_swap (con_id fw) y]).
Proof.
  intros Hpre Hlast Ht. unfold moveUp.
  assert (last (pre ++ con_id fw :: y :: post) = Some t) as Htop.
  { by rewrite last_app, last_cons_cons, Hlast. }
  with_commands.
  step. rewrite length_two_ltb.
  eapply bind_run.
  { eapply bind_run; [by apply get_top_run|reflexivity]. }
  norm. destruct (Z.eqb_spec (con_id fw) t); [congruence|].
  step. eapply scan_found; [done|]. norm. steps.
  Unshelve. all: reflexivity.
Qed.

Lemma moveUp_absent (fw : Con) (l : list Z) :
  (2 <= length l)%nat ->
  con_id fw ∉ l ->
  moveUp (Some fw) (MkManager m l wd lay) =
  (Returned tt, MkManager m l wd lay, []).
Proof.
  intros Hlen Hl. unfold moveUp.
  destruct (snoc_cases l) as [->|(init & t & ->)]; [simpl in Hlen; lia|].
  rewrite (bind_silent _ _ _ (Z.of_nat (length (init ++ [t])))
             (MkManager m (init ++ [t]) wd lay)) by done.
  destruct (Z.ltb_spec (Z.of_nat (length (init ++ [t]))) 2); [lia|].
  rewrite (bind_silent _ _ _ (con_id fw =? t)
             (MkManager m (init ++ [t]) wd lay)).
  2:{ by rewrite (bind_silent _ _ _ _ _ (get_last_run _ _ _ _ _)). }
  destruct (Z.eqb_spec (con_id fw) t) as [E|_].
  { exfalso. apply Hl. rewrite E. apply elem_of_app. right. apply list_elem_of_here. }
  rewrite (bind_silent _ _ _ (Z.of_nat (length (init ++ [t])))
             (MkManager m (init ++ [t]) wd lay)) by done.
  by apply scan_absent.
Qed.

Lemma moveDown_short (focused : option Con) (l : list Z) :
  (length l < 2)%nat ->
  moveDown focused (MkManager m l wd lay) = (Returned tt, MkManager m l wd lay, []).
Proof.
  intros Hlen. unfold moveDown.
  rewrite (bind_silent _ _ _ (Z.of_nat (length l)) (MkManager m l wd lay)) by done.
  by destruct (Z.ltb_spec (Z.of_nat (length l)) 2); [|lia].
Qed.

Lemma moveDown_none (l : list Z) :
  moveDown None (MkManager m l wd lay) = (Returned tt, MkManager m l wd lay, []).
Proof.
  unfold moveDown.
  rewrite (bind_silent _ _ _ (Z.of_nat (length l)) (MkManager m l wd lay)) by done.
  by destruct (Z.of_nat (length l) <? 2).
Qed.

Lemma moveDown_bottom (fw : Con) (l : list Z) :
  moveDown (Some fw) (MkManager m (con_id fw :: l) wd lay) =
  (Returned tt, MkManager m (con_id fw :: l) wd lay, []).
Proof.
  unfold moveDown.
  rewrite (bind_silent _ _ _ (Z.of_nat (length (con_id fw :: l)))
             (MkManager m (con_id fw :: l) wd lay)) by done.
  destruct (Z.of_nat (length (con_id fw :: l)) <? 2); [done|].
  rewrite (bind_silent _ _ _ _ _ (get_first_run _ _ _ _ _)).
  by rewrite Z.eqb_refl.
Qed.

Lemma moveDown_master (fw : Con) (b t : Z) (mid : list Z) :
  con_id fw = m -> con_id fw <> b ->
  moveDown (Some fw) (MkManager m (b :: mid ++ [t]) wd lay) =
  (Returned tt, MkManager t (b :: mid ++ [m]) wd lay, [cmd_swap m t]).
Proof.
  intros Hm Hb. unfold moveDown. rewrite <- Hm. with_commands.
  step. rewrite (proj2 (Z.ltb_ge (Z.of_nat (length (b :: mid ++ [t]))) 2)).
  2:{ simpl. rewrite length_app. simpl. lia. }
  step. destruct (Z.eqb_spec (con_id fw) b); [done|].
  step. rewrite Z.eqb_refl.
  change (b :: mid ++ [t]) with ((b :: mid) ++ [t]).
  steps.
  Unshelve. all: reflexivity.
Qed.

Lemma moveDown_swap (fw : Con) (pre post : list Z) (x : Z) :
  con_id fw <> m -> con_id fw ∉ pre -> con_id fw <> x ->
  moveDown (Some fw) (MkManager m (pre ++ x :: con_id fw :: post) wd lay) =
  (Returned tt, MkManager m (pre ++ con_id fw :: x :: post) wd lay,
   [cmd_swap (con_id fw) x]).
Proof.
  intros Hm Hpre Hx. unfold moveDown. with_commands.
  assert (exists b, head (pre ++ x :: con_id fw :: post) = Some b /\ con_id fw <> b)
    as (b & Hhead & Hb).
  { destruct pre as [|a pre]; [by exists x|].
    exists a. split; [done|]. intros E. apply Hpre. rewrite E. apply list_elem_of_here. }
  step. rewrite length_two_ltb.
  eapply bind_run; [by apply get_bottom_run|]. norm.
  destruct (Z.eqb_spec (con_id fw) b); [done|].
  step. destruct (Z.eqb_spec (con_id fw) m); [done|].
  step.
  assert (pre ++ x :: con_id fw :: post = (pre ++ [x]) ++ con_id fw :: post) as E
    by (by rewrite <- app_assoc).
  rewrite E. eapply scan_found.
  { rewrite elem_of_app, list_elem_of_singleton. intros [?|?]; done. }
  rewrite <- E. rewrite length_app, Nat.add_1_r. norm. steps.
  Unshelve. all: reflexivity.
Qed.

Lemma moveDown_absent (fw : Con) (l : list Z) :
  con_id fw <> m -> con_id fw ∉ l ->
  moveDown (Some fw) (MkManager m l wd lay) =
  (Returned tt, MkManager m l wd lay, []).
Proof.
  intros Hm Hl. unfold moveDown.
  rewrite (bind_silent _ _ _ (Z.of_nat (length l)) (MkManager m l wd lay)) by done.
  destruct (Z.of_nat (length l) <? 2) eqn:Hlen; [done|].
  destruct l as [|b l]; [done|].
  rewrite (bind_silent _ _ _ _ _ (get_first_run _ _ _ _ _)).
  destruct (Z.eqb_spec (con_id fw) b) as [E|_].
  { exfalso. apply Hl. rewrite E. apply list_elem_of_here. }
  rewrite (bind_silent _ _ _ m (MkManager m (b :: l) wd lay)) by done.
  destruct (Z.eqb_spec (con_id fw) m); [done|].
  rewrite (bind_silent _ _ _ (Z.of_nat (length (b :: l)))
             (MkManager m (b :: l) wd lay)) by done.
  by apply scan_absent.
Qed.

Lemma rotateCCW_short (l : list Z) :
  (length l < 2)%nat ->
  rotateCCW (MkManager m l wd lay) = (Returned tt, MkManager m l wd lay, []).
Proof.
  intros Hlen. unfold rotateCCW.
  rewrite (bind_silent _ _ _ (Z.of_nat (length l)) (MkManager m l wd lay)) by done.
  by destruct (Z.ltb_spec (Z.of_nat (length l)) 2); [|lia].
Qed.

Lemma rotateCCW_run (b t : Z) (mid : list Z) :
  rotateCCW (MkManager m (b :: mid ++ [t]) wd lay) =
  (Returned tt, MkManager t (m :: b :: mid) wd lay,
   [cmd_swap t m; cmd_mark b; cmd_move_to_mark m; cmd_unmark b]).
Proof.
  unfold rotateCCW, moveWindow. with_commands.
  step. rewrite (proj2 (Z.ltb_ge (Z.of_nat (length (b :: mid ++ [t]))) 2)).
  2:{ simpl. rewrite length_app. simpl. lia. }
  change (b :: mid ++ [t]) with ((b :: mid) ++ [t]).
  steps.
  Unshelve. all: reflexivity.
Qed.

Lemma rotateCW_short (l : list Z) :
  (length l < 2)%nat ->
  rotateCW (MkManager m l wd lay) = (Returned tt, MkManager m l wd lay, []).
Proof.
  intros Hlen. unfold rotateCW.
  rewrite (bind_silent _ _ _ (Z.of_nat (length l)) (MkManager m l wd lay)) by done.
  by destruct (Z.ltb_spec (Z.of_nat (length l)) 2); [|lia].
Qed.

Lemma rotateCW_run (b t : Z) (mid : list Z) :
  rotateCW (MkManager m (b :: mid ++ [t]) wd lay) =
  (Returned tt, MkManager b (mid ++ [t] ++ [m]) wd lay,
   [cmd_swap b m; cmd_mark t; cmd_move_to_mark m; cmd_unmark t;
    cmd_focus m; cmd_move_up; cmd_focus b]).
Proof.
  unfold rotateCW, moveWindow. with_commands.
  step. rewrite (proj2 (Z.ltb_ge (Z.of_nat (length (b :: mid ++ [t]))) 2)).
  2:{ simpl. rewrite length_app. simpl. lia. }
  rewrite (app_assoc mid [t] [m]).
  steps.
  Unshelve. all: reflexivity.
Qed.

Lemma swapMaster_empty (focused : option Con) :
  swapMaster focused (MkManager m [] wd lay) =
  (Returned tt, MkManager m [] wd lay, []).
Proof. reflexivity. Qed.

Lemma swapMaster_none (l : list Z) :
  swapMaster None (MkManager m l wd lay) = (Returned tt, MkManager m l wd lay, []).
Proof.
  unfold swapMaster.
  rewrite (bind_silent _ _ _ (Z.of_nat (length l)) (MkManager m l wd lay)) by done.
  by destruct (Z.of_nat (length l) =? 0).
Qed.

Lemma swapMaster_master (fw : Con) (init : list Z) (x : Z) :
  con_id fw = m ->
  swapMaster (Some fw) (MkManager m (init ++ [x]) wd lay) =
  (Returned tt, MkManager x (init ++ [m]) wd lay, [cmd_swap x m]).
Proof.
  intros Hm. unfold swapMaster. with_commands.
  step. rewrite length_snoc_eqb.
  step. rewrite Hm, Z.eqb_refl. steps.
  Unshelve. all: reflexivity.
Qed.

Lemma swapMaster_stack (fw : Con) (pre post : list Z) :
  con_id fw <> m -> con_id fw ∉ pre ->
  swapMaster (Some fw) (MkManager m (pre ++ con_id fw :: post) wd lay) =
  (Returned tt, MkManager (con_id fw) (pre ++ m :: post) wd lay,
   [cmd_swap (con_id fw) m; cmd_focus m]).
Proof.
  intros Hm Hpre. unfold swapMaster. with_commands.
  step. rewrite (proj2 (Z.eqb_neq (Z.of_nat (length (pre ++ con_id fw :: post))) 0)).
  2:{ rewrite length_app. simpl. lia. }
  step. destruct (Z.eqb_spec (con_id fw) m); [done|].
  step. eapply scan_found; [done|]. norm. steps.
  Unshelve. all: reflexivity.
Qed.

Lemma swapMaster_absent (fw : Con) (l : list Z) :
  con_id fw <> m -> con_id fw ∉ l ->
  swapMaster (Some fw) (MkManager m l wd lay) =
  (Returned tt, MkManager m l wd lay, []).
Proof.
  intros Hm Hl. unfold swapMaster.
  rewrite (bind_silent _ _ _ (Z.of_nat (length l)) (MkManager m l wd lay)) by done.
  destruct (Z.of_nat (length l) =? 0); [done|].
  rewrite (bind_silent _ _ _ m (MkManager m l wd lay)) by done.
  destruct (Z.eqb_spec (con_id fw) m); [done|].
  rewrite (bind_silent _ _ _ (Z.of_nat (length l)) (MkManager m l wd lay)) by done.
  by apply scan_absent.
Qed.

End Methods.

(** ** Navigation rearranges, and only moveUp on an empty stack raises *)

Lemma focus_cases (f : Z) (l : list Z) :
  f ∉ l \/ exists pre post, l = pre ++ f :: post /\ f ∉ pre.
Proof.
  destruct (decide (f ∈ l)) as [Hin|Hout]; [right|by left].
  by apply list_elem_of_split_l.
Qed.

Lemma perm_ends (a b : Z) (l : list Z) : a :: l ++ [b] ≡ₚ b :: l ++ [a].
Proof. solve_Permutation. Qed.

Lemma moveUp_effect (focused : option Con) (s : Manager) :
  rearranged s (final (moveUp focused s)) /\
  (stackIds s <> [] -> returns (moveUp focused s) = true).
Proof.
  destruct s as [m l wd lay]. destruct focused as [fw|]; [|by rewrite moveUp_none].
  destruct (snoc_cases l) as [->|(init & t & ->)]; [by rewrite moveUp_empty|].
  destruct (decide (init = [] \/ con_id fw = t)) as [Htop|Hnot].
  { rewrite (moveUp_top m wd lay fw init t Htop).
    split; [|done]. split; [|done]. apply perm_ends. }
  assert (init <> [] /\ con_id fw <> t) as [Hinit Hne] by tauto.
  destruct (focus_cases (con_id fw) (init ++ [t])) as [Hout|(pre & post & E & Hpre)].
  { rewrite moveUp_absent; [done| |done].
    rewrite length_app. destruct init; [done|]. simpl. lia. }
  destruct post as [|y post].
  { apply app_inj_tail in E as [_ E]. congruence. }
  assert (last (y :: post) = Some t) as Hlast.
  { assert (last (init ++ [t]) = Some t) as Ht by apply last_snoc.
    rewrite E, last_app, last_cons_cons in Ht.
    destruct (last (y :: post)) eqn:E2; [done|]. by apply last_None in E2. }
  rewrite E.
  rewrite (moveUp_swap m wd lay fw pre post y t Hpre Hlast) by congruence.
  split; [|done]. split; [|done]. cbn.
  apply Permutation_cons; [done|]. apply Permutation_app_head, perm_swap.
Qed.

Lemma moveDown_effect (focused : option Con) (s : Manager) :
  rearranged s (final (moveDown focused s)) /\
  returns (moveDown focused s) = true.
Proof.
  destruct s as [m l wd lay]. destruct focused as [fw|]; [|by rewrite moveDown_none].
  destruct (decide (length l < 2)%nat) as [Hlt|Hge]; [by rewrite moveDown_short|].
  destruct l as [|b l]; [simpl in Hge; lia|].
  destruct (decide (con_id fw = b)) as [<-|Hb]; [by rewrite moveDown_bottom|].
  destruct (decide (con_id fw = m)) as [Hm|Hm].
  { destruct (snoc_cases l) as [->|(mid & t & ->)]; [simpl in Hge; lia|].
    rewrite (moveDown_master m wd lay fw b t mid Hm Hb).
    split; [|done]. split; [|done]. apply (perm_ends t m (b :: mid)). }
  destruct (focus_cases (con_id fw) (b :: l)) as [Hout|(pre & post & E & Hpre)].
  { by rewrite moveDown_absent. }
  destruct (snoc_cases pre) as [->|(pre' & x & ->)].
  { injection E as E _. congruence. }
  rewrite E, <- app_assoc. cbn [app].
  rewrite (moveDown_swap m wd lay fw pre' post x Hm).
  2:{ intros Hin. apply Hpre, elem_of_app. by left. }
  2:{ intros Hx. apply Hpre, elem_of_app. right. rewrite Hx. apply list_elem_of_here. }
  split; [|done]. split; [|done]. cbn.
  apply Permutation_cons; [done|]. apply Permutation_app_head, perm_swap.
Qed.

Lemma rotateCCW_snoc (m b t : Z) (init : list Z) wd lay :
  head init = Some b ->
  rotateCCW (MkManager m (init ++ [t]) wd lay) =
  (Returned tt, MkManager t (m :: init) wd lay,
   [cmd_swap t m; cmd_mark b; cmd_move_to_mark m; cmd_unmark b]).
Proof.
  destruct init as [|b' mid]; [done|]. intros [= ->]. apply rotateCCW_run.
Qed.

Lemma rotateCW_cons (m b t : Z) (rest : list Z) wd lay :
  last rest = Some t ->
  rotateCW (MkManager m (b :: rest) wd lay) =
  (Returned tt, MkManager b (rest ++ [m]) wd lay,
   [cmd_swap b m; cmd_mark t; cmd_move_to_mark m; cmd_unmark t;
    cmd_focus m; cmd_move_up; cmd_focus b]).
Proof.
  destruct (snoc_cases rest) as [->|(mid & t' & ->)]; [done|].
  rewrite last_snoc. intros [= ->].
  rewrite rotateCW_run. by rewrite app_assoc.
Qed.

Lemma rotateCCW_effect (s : Manager) :
  rearranged s (final (rotateCCW s)) /\ returns (rotateCCW s) = true.
Proof.
  destruct s as [m l wd lay].
  destruct (decide (length l < 2)%nat) as [Hlt|Hge]; [by rewrite rotateCCW_short|].
  destruct l as [|b l]; [simpl in Hge; lia|].
  destruct (snoc_cases l) as [->|(mid & t & ->)]; [simpl in Hge; lia|].
  rewrite rotateCCW_run. split; [|done]. split; [|done]. cbn.
  solve_Permutation.
Qed.

Lemma rotateCW_effect (s : Manager) :
  rearranged s (final (rotateCW s)) /\ returns (rotateCW s) = true.
Proof.
  destruct s as [m l wd lay].
  destruct (decide (length l < 2)%nat) as [Hlt|Hge]; [by rewrite rotateCW_short|].
  destruct l as [|b l]; [simpl in Hge; lia|].
  destruct (snoc_cases l) as [->|(mid & t & ->)]; [simpl in Hge; lia|].
  rewrite rotateCW_run. split; [|done]. split; [|done]. cbn.
  solve_Permutation.
Qed.

Lemma swapMaster_effect (focused : option Con) (s : Manager) :
  rearranged s (final (swapMaster focused s)) /\
  returns (swapMaster focused s) = true.
Proof.
  destruct s as [m l wd lay]. destruct focused as [fw|]; [|by rewrite swapMaster_none].
  destruct (decide (con_id fw = m)) as [Hm|Hm].
  { destruct (snoc_cases l) as [->|(init & t & ->)]; [done|].
    rewrite swapMaster_master by done.
    split; [|done]. split; [|done]. apply perm_ends. }
  destruct (focus_cases (con_id fw) l) as [Hout|(pre & post & -> & Hpre)].
  { by rewrite swapMaster_absent. }
  rewrite swapMaster_stack by done.
  split; [|done]. split; [|done]. cbn.
  solve_Permutation.
Qed.

(** ** Insertion and removal *)

Lemma pushWindow_effect (windowId : Z) (s : Manager) :
  final (pushWindow windowId s) =
    MkManager windowId
      (stackIds s ++ if masterId s =? 0 then [] else [masterId s])
      (masterWidth s) (stackLayout s) /\
  returns (pushWindow windowId s) = true.
Proof.
  destruct s as [m l wd lay].
  destruct (pushWindow_run windowId m l wd lay) as [cmds ->]. cbn.
  split; [|done]. destruct (m =? 0); [by rewrite app_nil_r|done].
Qed.

Lemma popWindow_effect (s : Manager) :
  final (popWindow s) =
    match Deque.unsnoc (stackIds s) with
    | None => MkManager 0 [] (masterWidth s) (stackLayout s)
    | Some (init, top) => MkManager top init (masterWidth s) (stackLayout s)
    end /\
  returns (popWindow s) = true.
Proof.
  destruct s as [m l wd lay].
  destruct (snoc_cases l) as [->|(init & t & ->)]; [done|].
  destruct (popWindow_snoc m wd lay init t) as [cmds ->]. cbn.
  by rewrite unsnoc_snoc.
Qed.

(** Removal of a window other than the master: the first occurrence in
    the stack goes, and nothing happens when there is none. *)
Lemma removeWindow_effect (windowId : Z) (s : Manager) :
  masterId s <> windowId ->
  issued (removeWindow windowId s) = [] /\
  returns (removeWindow windowId s) = true /\
  (((windowId ∉ stackIds s) /\ final (removeWindow windowId s) = s) \/
   exists pre post,
     stackIds s = pre ++ windowId :: post /\ (windowId ∉ pre) /\
     final (removeWindow windowId s) =
       MkManager (masterId s) (pre ++ post) (masterWidth s) (stackLayout s)).
Proof.
  destruct s as [m l wd lay]. cbn [masterId stackIds masterWidth stackLayout].
  intros Hm.
  destruct (focus_cases windowId l) as [Hout|(pre & post & -> & Hpre)].
  - rewrite removeWindow_untracked by done. repeat split. by left.
  - rewrite removeWindow_stack by done. repeat split. right. by exists pre, post.
Qed.

Lemma removeWindow_returns (windowId : Z) (s : Manager) :
  returns (removeWindow windowId s) = true.
Proof.
  destruct (decide (masterId s = windowId)) as [<-|Hm].
  - destruct s as [m l wd lay]. cbn [masterId].
    rewrite removeWindow_master. apply popWindow_effect.
  - by apply removeWindow_effect.
Qed.

(** ** The invariants under rearrangement, insertion and removal *)

Lemma rearranged_stack_has_master (s s' : Manager) :
  rearranged s s' -> stack_has_master s -> stack_has_master s'.
Proof.
  intros (Hp & _ & _) [Hall Hm].
  destruct (stackIds s) as [|x l] eqn:Hl.
  - apply Permutation_length in Hp. cbn in Hp.
    destruct (stackIds s') eqn:Hl'; [|done].
    split; [unfold stack_has_master; by rewrite Hl'|done].
  - assert (Forall (fun z => z <> 0) (masterId s' :: stackIds s')) as Hall'.
    { rewrite Hp. constructor; [by apply Hm|done]. }
    apply Forall_cons in Hall' as [Hm' Hs']. by split.
Qed.

Lemma rearranged_exclusive (s s' : Manager) :
  rearranged s s' -> exclusive s -> exclusive s'.
Proof. intros (Hp & _ & _). unfold exclusive. by rewrite Hp. Qed.

Lemma pushWindow_stack_has_master (windowId : Z) (s : Manager) :
  windowId <> 0 -> stack_has_master s ->
  stack_has_master (final (pushWindow windowId s)).
Proof.
  intros Hw [Hall Hm]. destruct (pushWindow_effect windowId s) as [-> _].
  split; [|done]. cbn. apply Forall_app. split; [done|].
  destruct (Z.eqb_spec (masterId s) 0); [constructor|]. by repeat constructor.
Qed.

Lemma popWindow_stack_has_master (s : Manager) :
  stack_has_master s -> stack_has_master (final (popWindow s)).
Proof.
  intros [Hall Hm]. destruct (popWindow_effect s) as [-> _].
  destruct (snoc_cases (stackIds s)) as [E|(init & t & E)]; rewrite E.
  - by split.
  - rewrite unsnoc_snoc. rewrite E in Hall.
    apply Forall_app in Hall as [Hinit Ht]. split; [done|]. cbn.
    intros _. by inversion Ht.
Qed.

Lemma removeWindow_stack_has_master (windowId : Z) (s : Manager) :
  stack_has_master s -> stack_has_master (final (removeWindow windowId s)).
Proof.
  intros Hs. destruct (decide (masterId s = windowId)) as [<-|Hne].
  - destruct s as [m l wd lay]. cbn [masterId].
    rewrite removeWindow_master. by apply popWindow_stack_has_master.
  - destruct (removeWindow_effect windowId s Hne)
      as (_ & _ & [[_ ->]|(pre & post & E & _ & ->)]); [done|].
    destruct Hs as [Hall Hm]. rewrite E in Hall, Hm.
    apply Forall_app in Hall as [Hpre Hpost]. apply Forall_cons in Hpost as [_ Hpost].
    split; cbn.
    + by apply Forall_app.
    + intros _. apply Hm. by destruct pre.
Qed.

Lemma perform_rearranges (op : Op) (s : Manager) :
  match op with
  | Push _ | Remove _ | Pop => True
  | _ => rearranged s (final (perform op s))
  end.
Proof.
  destruct op; cbn [perform]; try done.
  - apply moveUp_effect.
  - apply moveDown_effect.
  - apply rotateCCW_effect.
  - apply rotateCW_effect.
  - apply swapMaster_effect.
Qed.

Lemma perform_stack_has_master (op : Op) (s : Manager) :
  op <> Push 0 -> stack_has_master s -> stack_has_master (final (perform op s)).
Proof.
  intros Hop Hs. pose proof (perform_rearranges op s) as Hr.
  destruct op; cbn [perform];
    try (by eapply rearranged_stack_has_master; [exact Hr|]).
  - apply pushWindow_stack_has_master; [congruence|done].
  - by apply removeWindow_stack_has_master.
  - by apply popWindow_stack_has_master.
Qed.

Lemma after_stack_has_master (ops : list Op) (s : Manager) :
  Forall (fun op => op <> Push 0) ops ->
  stack_has_master s -> stack_has_master (after ops s).
Proof.
  revert s. induction ops as [|op ops IH]; intros s Hops Hs; [done|].
  apply Forall_cons in Hops as [Hop Hops]. cbn.
  apply IH; [done|]. by apply perform_stack_has_master.
Qed.

(** * The claims *)

(** C1, as amended: from the empty model, after any sequence of pushWindow,
    removeWindow, popWindow, moveUp, moveDown, rotateCCW, rotateCW and
    swapMaster in which no pushed identifier is 0 (the value of the empty
    master slot), a non-empty stack comes with a non-empty master, and 0 is
    not in the stack. *)
Theorem stack_has_master_after (wd : option Z) (lay : option string) (ops : list Op) :
  Forall (fun op => op <> Push 0) ops ->
  let s := after ops (init wd lay) in
  (stackIds s <> [] -> masterId s <> 0) /\ (0 ∉ stackIds s).
Proof.
  intros Hops s.
  destruct (after_stack_has_master ops (init wd lay) Hops) as [Hall Hm].
  { by split. }
  split; [done|]. intros Hin.
  by apply (proj1 (Forall_forall _ _) Hall 0 Hin).
Qed.

Lemma stack_has_master_after_witness :
  let s := after [Push 1; Push 2; Push 3; RotateCW] (init None None) in
  s = MkManager 1 [2; 3] None None /\
  ((stackIds s <> [] -> masterId s <> 0) /\ (0 ∉ stackIds s)).
Proof.
  split; [reflexivity|].
  apply (stack_has_master_after None None [Push 1; Push 2; Push 3; RotateCW]).
  repeat constructor; discriminate.
Defined.

(** C1 as stated fails when the identifier 0 is pushed onto a model that
    has a master: the master moves to the stack and the master slot holds
    0, the empty value. *)
Lemma push_zero_empties_master :
  let s := after [Push 5; Push 0] (init None None) in
  stackIds s = [5] /\ masterId s = 0.
Proof. split; reflexivity. Qed.

(** C3: from the empty model, pushing 1 gives master 1 and an empty stack;
    pushing 2 gives master 2 and stack [1]; pushing 3 gives master 3 and
    stack [1; 2]; removing 3, the master, gives master 2 and stack [1];
    removing 1 gives master 2 and an empty stack.  Every step returns. *)
Theorem scenario_push_push_push_remove_remove (wd : option Z) (lay : option string) :
  let s0 := init wd lay in
  let s1 := final (pushWindow 1 s0) in
  let s2 := final (pushWindow 2 s1) in
  let s3 := final (pushWindow 3 s2) in
  let s4 := final (removeWindow 3 s3) in
  let s5 := final (removeWindow 1 s4) in
  (masterId s1 = 1 /\ stackIds s1 = []) /\
  (masterId s2 = 2 /\ stackIds s2 = [1]) /\
  (masterId s3 = 3 /\ stackIds s3 = [1; 2]) /\
  (masterId s4 = 2 /\ stackIds s4 = [1]) /\
  (masterId s5 = 2 /\ stackIds s5 = []) /\
  returns (pushWindow 1 s0) && returns (pushWindow 2 s1)
    && returns (pushWindow 3 s2) && returns (removeWindow 3 s3)
    && returns (removeWindow 1 s4) = true.
Proof. destruct wd; repeat split; reflexivity. Qed.

(** C4: in every state, pushWindow returns with the pushed identifier as
    master, and the stack is the old stack, in its order, with the old
    master appended at the top (nothing is appended when the master slot
    was empty). *)
Theorem pushWindow_master_and_order (s : Manager) (windowId : Z) :
  let s' := final (pushWindow windowId s) in
  returns (pushWindow windowId s) = true /\
  masterId s' = windowId /\
  stackIds s' = stackIds s ++ (if masterId s =? 0 then [] else [masterId s]).
Proof.
  intros s'. subst s'.
  destruct (pushWindow_effect windowId s) as [-> Hret]. by repeat split.
Qed.

(** C7: with at least two stack elements, rotateCCW followed by rotateCW
    returns, both times, and leaves the manager as it was: same master,
    same stack in the same order. *)
Theorem rotateCCW_then_rotateCW (s : Manager) :
  (2 <= length (stackIds s))%nat ->
  final (rotateCW (final (rotateCCW s))) = s /\
  returns (rotateCCW s) = true /\
  returns (rotateCW (final (rotateCCW s))) = true.
Proof.
  destruct s as [m l wd lay]. cbn [stackIds]. intros Hlen.
  destruct (snoc_cases l) as [->|(init & t & ->)]; [simpl in Hlen; lia|].
  destruct init as [|b mid]; [simpl in Hlen; lia|].
  rewrite (rotateCCW_snoc m b t (b :: mid)) by done. cbn [final fst snd].
  assert (exists t', last (b :: mid) = Some t') as [t' Ht'].
  { destruct (last (b :: mid)) eqn:E; [eauto|]. by apply last_None in E. }
  by rewrite (rotateCW_cons t m t' (b :: mid) wd lay Ht').
Qed.

Lemma rotateCCW_then_rotateCW_witness :
  final (rotateCW (final (rotateCCW (MkManager 3 [1; 2] None None))))
    = MkManager 3 [1; 2] None None /\
  returns (rotateCCW (MkManager 3 [1; 2] None None)) = true /\
  returns (rotateCW (final (rotateCCW (MkManager 3 [1; 2] None None)))) = true.
Proof.
  apply (rotateCCW_then_rotateCW (MkManager 3 [1; 2] None None)).
  apply le_n.
Defined.

(** C10: the empty master slot is the integer 0.  Pushing the identifier 0
    into the empty model returns without a command and leaves the empty
    model; whatever is pushed next becomes master as a first window does,
    without a command; and in any state whose master is 0 a push overwrites
    the master and leaves the stack alone, so 0 never moves to the stack as
    the previous master. *)
Theorem zero_is_the_empty_master (wd : option Z) (lay : option string) :
  pushWindow 0 (init wd lay) = (Returned tt, init wd lay, []) /\
  (forall windowId,
     pushWindow windowId (final (pushWindow 0 (init wd lay))) =
     (Returned tt, MkManager windowId [] wd lay, []) /\
     pushWindow windowId (final (pushWindow 0 (init wd lay))) =
     pushWindow windowId (init wd lay)) /\
  (forall windowId l,
     pushWindow windowId (MkManager 0 l wd lay) =
     (Returned tt, MkManager windowId l wd lay, [])).
Proof. repeat split. Qed.

(** C6, as amended: with no focused window moveUp, moveDown and swapMaster
    return without a command and leave the manager unchanged.  rotateCCW
    and rotateCW do not read the focus: the bindings that reach them run
    them whatever is focused, they do nothing when the stack has fewer than
    two elements, and with two or more they rotate, focused window or not:
    over bottom [b], middle [mid] and top [t], rotateCCW makes the top the
    master and the old master the new bottom, rotateCW makes the bottom
    the master and the old master the new top, each with its commands. *)
Theorem navigation_without_focus (s : Manager) :
  (moveUp None s = (Returned tt, s, []) /\
   moveDown None s = (Returned tt, s, []) /\
   swapMaster None s = (Returned tt, s, [])) /\
  (onBinding "nop swlm move up" None s = (Returned tt, s, []) /\
   onBinding "nop swlm move down" None s = (Returned tt, s, []) /\
   onBinding "nop swlm swap master" None s = (Returned tt, s, [])) /\
  (forall focused,
     onBinding "nop swlm rotate ccw" focused s = rotateCCW s /\
     onBinding "nop swlm move left" focused s = rotateCCW s /\
     onBinding "nop swlm rotate cw" focused s = rotateCW s /\
     onBinding "nop swlm move right" focused s = rotateCW s) /\
  ((length (stackIds s) < 2)%nat ->
   rotateCCW s = (Returned tt, s, []) /\ rotateCW s = (Returned tt, s, [])) /\
  ((2 <= length (stackIds s))%nat ->
   exists b mid t,
     stackIds s = b :: mid ++ [t] /\
     rotateCCW s =
       (Returned tt,
        MkManager t (masterId s :: b :: mid) (masterWidth s) (stackLayout s),
        [cmd_swap t (masterId s); cmd_mark b;
         cmd_move_to_mark (masterId s); cmd_unmark b]) /\
     rotateCW s =
       (Returned tt,
        MkManager b (mid ++ [t; masterId s]) (masterWidth s) (stackLayout s),
        [cmd_swap b (masterId s); cmd_mark t;
         cmd_move_to_mark (masterId s); cmd_unmark t;
         cmd_focus (masterId s); cmd_move_up; cmd_focus b])).
Proof.
  destruct s as [m l wd lay].
  assert (moveUp None (MkManager m l wd lay) = (Returned tt, MkManager m l wd lay, []) /\
          moveDown None (MkManager m l wd lay) = (Returned tt, MkManager m l wd lay, []) /\
          swapMaster None (MkManager m l wd lay) = (Returned tt, MkManager m l wd lay, []))
    as Hnone.
  { by rewrite moveUp_none, moveDown_none, swapMaster_none. }
  split; [exact Hnone|]. split; [exact Hnone|]. split; [done|].
  cbn [stackIds masterId masterWidth stackLayout]. split.
  - intros Hlt. by rewrite rotateCCW_short, rotateCW_short.
  - intros Hge.
    destruct l as [|b l]; [simpl in Hge; lia|].
    destruct (snoc_cases l) as [->|(mid & t & ->)]; [simpl in Hge; lia|].
    exists b, mid, t. split; [done|].
    split; [apply rotateCCW_run|apply rotateCW_run].
Qed.

(** C6 as stated fails for the rotations: with master 3, stack [1; 2] and
    no focused window, the rotate-ccw binding makes 2 the master, puts 3 at
    the bottom of the stack and issues four commands. *)
Lemma rotateCCW_without_focus_rotates :
  onBinding "nop swlm rotate ccw" None (MkManager 3 [1; 2] None None) =
  (Returned tt, MkManager 2 [3; 1] None None,
   ["[con_id=2] swap container with con_id 3";
    "[con_id=1] mark --add move_target";
    "[con_id=3] move container to mark move_target";
    "[con_id=1] unmark move_target"]).
Proof. reflexivity. Qed.

(** C9, as amended: with a focused window [fw], moveDown
    - does nothing when the stack has fewer than two elements, whatever is
      focused (so also when the master is focused over a stack of one);
    - does nothing when the focused window is the bottom of the stack;
    - with two or more stack elements, when the focused window is the
      master and not the bottom, makes the old top the master and the old
      master the new top, with one swap command;
    - when the focused window is not the master and is in the stack above
      the bottom, exchanges its first occurrence with the neighbour below
      it, with one swap command;
    - does nothing when the focused window is neither master nor in the
      stack.
    It returns in every case. *)
Theorem moveDown_cases (fw : Con) (m : Z) (l : list Z) (wd : option Z) (lay : option string) :
  let s := MkManager m l wd lay in
  ((length l < 2)%nat -> moveDown (Some fw) s = (Returned tt, s, [])) /\
  (head l = Some (con_id fw) -> moveDown (Some fw) s = (Returned tt, s, [])) /\
  (forall b mid t,
     l = b :: mid ++ [t] -> con_id fw <> b -> con_id fw = m ->
     moveDown (Some fw) s =
     (Returned tt, MkManager t (b :: mid ++ [m]) wd lay, [cmd_swap m t])) /\
  (forall pre x post,
     l = pre ++ x :: con_id fw :: post ->
     con_id fw <> m -> con_id fw ∉ pre -> con_id fw <> x ->
     moveDown (Some fw) s =
     (Returned tt, MkManager m (pre ++ con_id fw :: x :: post) wd lay,
      [cmd_swap (con_id fw) x])) /\
  (con_id fw <> m -> con_id fw ∉ l -> moveDown (Some fw) s = (Returned tt, s, [])) /\
  returns (moveDown (Some fw) s) = true.
Proof.
  intros s. subst s. repeat split.
  - apply moveDown_short.
  - destruct l as [|b l]; [done|]. intros [= ->]. apply moveDown_bottom.
  - intros b mid t -> Hb Hm. by apply moveDown_master.
  - intros pre x post -> Hm Hpre Hx. by apply moveDown_swap.
  - apply moveDown_absent.
  - apply moveDown_effect.
Qed.

(** C9 as stated fails over a stack of one element: with master 1 focused
    and stack [2], moveDown changes nothing and issues no command; master
    and top are not swapped. *)
Lemma moveDown_master_over_single_stack :
  moveDown (Some (window 1)) (MkManager 1 [2] None None) =
  (Returned tt, MkManager 1 [2] None None, []).
Proof. reflexivity. Qed.

(** C2 does not hold of the code: two window-added notifications that both
    find window 1 focused leave 1 as the master and in the stack.
    [windowAdded] pushes the focused window without the membership test
    that [arrangeExistingLayout] makes before it pushes. *)
Theorem window_added_twice_is_tracked_twice (wd : option Z) (lay : option string) :
  let s := after_notifications
             [WindowAdded (Some (window 1)); WindowAdded (Some (window 1))]
             (init wd lay) in
  masterId s = 1 /\ stackIds s = [1] /\ ~ exclusive s.
Proof.
  assert (after_notifications
            [WindowAdded (Some (window 1)); WindowAdded (Some (window 1))]
            (init wd lay) = MkManager 1 [1] wd lay) as ->
    by (by destruct wd).
  repeat split. unfold exclusive. cbn. intros Hd.
  apply NoDup_cons in Hd as [Hd _]. apply Hd, list_elem_of_here.
Qed.

(** C5 does not hold of the code: with one tracked window, the master, and
    an empty stack, the move-up binding with that window focused raises
    IndexError out of the handler ([self.stackIds.pop()] on an empty
    deque); so does moveUp with any focused window in any state whose
    stack is empty.  The manager is left unchanged. *)
Theorem moveUp_on_empty_stack_raises (wd : option Z) (lay : option string) :
  (let s := final (pushWindow 1 (init wd lay)) in
   onBinding "nop swlm move up" (Some (window 1)) s = (Raised IndexError, s, [])) /\
  (forall fw m,
     moveUp (Some fw) (MkManager m [] wd lay) =
     (Raised IndexError, MkManager m [] wd lay, [])).
Proof. split; [reflexivity|]. intros fw m. apply moveUp_empty. Qed.

(** C8 does not hold of the code: in the nested branch the reconciliation
    pass tests and records the parent node, once per child.  Over a split
    container 10 that holds the windows 11 and 12 it collects [10; 10] and
    tracks 10 as the master, where the per-child reading collects [11; 12]
    and tracks both windows; over a tiled container 20 that holds the
    floating window 21 it tracks 20, where the per-child reading tracks
    nothing. *)
Theorem reconciliation_reads_the_parent :
  (collectUntracked nested_workspace = [10; 10] /\
   collectUntracked_per_child nested_workspace = [11; 12]) /\
  (let s := final (arrangeExistingLayout nested_workspace (init None None)) in
   masterId s = 10 /\ stackIds s = []) /\
  (let s := final (pushUntracked (collectUntracked_per_child nested_workspace)
                     (init None None)) in
   masterId s = 12 /\ stackIds s = [11]) /\
  (collectUntracked floating_child_workspace = [20] /\
   collectUntracked_per_child floating_child_workspace = []) /\
  (let s := final (arrangeExistingLayout floating_child_workspace (init None None)) in
   masterId s = 20 /\ stackIds s = []).
Proof. repeat split. Qed.

(** Whatever the workspace, an identifier that the reconciliation pass
    collects is the identifier of a direct child of the workspace. *)
Lemma collectUntracked_direct_children (workspace : Con) (x : Z) :
  x ∈ collectUntracked workspace ->
  exists node, node ∈ con_nodes workspace /\ x = con_id node.
Proof.
  unfold collectUntracked. rewrite list_elem_of_In, in_flat_map.
  intros (node & Hnode & Hx). exists node. split; [by apply list_elem_of_In|].
  destruct (length (con_nodes node) =? 0)%nat.
  - destruct (isExcluded (Some node)); [done|].
    by destruct Hx as [<-|[]].
  - apply in_flat_map in Hx as (conNode & _ & Hx).
    destruct (isExcluded (Some node)); [done|].
    by destruct Hx as [<-|[]].
Qed.

(** ** Further properties of the handlers *)

Lemma setStackLayout_effect (s : Manager) :
  final (setStackLayout s) = s /\ returns (setStackLayout s) = true.
Proof. destruct s as [m [|b l] wd lay]; by split. Qed.

Lemma onBinding_cases (cmd : string) (focused : option Con) (s : Manager) :
  (cmd = "nop swlm move up" /\ onBinding cmd focused s = moveUp focused s) \/
  onBinding cmd focused s = moveDown focused s \/
  onBinding cmd focused s = rotateCCW s \/
  onBinding cmd focused s = rotateCW s \/
  onBinding cmd focused s = swapMaster focused s \/
  onBinding cmd focused s = (Returned tt, s, []).
Proof.
  unfold onBinding.
  destruct (String.eqb_spec cmd "nop swlm move up"); [by left|right].
  destruct (String.eqb cmd "nop swlm move down"); [by left|right].
  destruct (String.eqb cmd "nop swlm rotate ccw" || String.eqb cmd "nop swlm move left");
    [by left|right].
  destruct (String.eqb cmd "nop swlm rotate cw" || String.eqb cmd "nop swlm move right");
    [by left|right].
  destruct (String.eqb cmd "nop swlm swap master"); [by left|by right].
Qed.

(** Removing an identifier that is neither the master nor in the stack
    returns, issues no command and leaves the manager as it was. *)
Theorem removeWindow_untracked_is_noop (windowId : Z) (s : Manager) :
  windowId <> masterId s -> windowId ∉ stackIds s ->
  removeWindow windowId s = (Returned tt, s, []).
Proof.
  destruct s as [m l wd lay]. cbn [masterId stackIds]. intros Hm Hl.
  apply removeWindow_untracked; [congruence|done].
Qed.

Lemma removeWindow_untracked_is_noop_witness :
  removeWindow 7 (MkManager 3 [1; 2] None None) =
  (Returned tt, MkManager 3 [1; 2] None None, []).
Proof.
  apply (removeWindow_untracked_is_noop 7 (MkManager 3 [1; 2] None None)).
  - discriminate.
  - cbn [stackIds]. intros Hin.
    repeat (apply elem_of_cons in Hin as [Hin|Hin]; [discriminate Hin|]).
    by apply not_elem_of_nil in Hin.
Defined.

(** Every handler returns, except the move-up binding with a focused
    window over an empty stack. *)
Theorem handlers_return (n : Notification) (s : Manager) :
  stackIds s <> [] \/ (forall fw, n <> Binding "nop swlm move up" (Some fw)) ->
  returns (handle n s) = true.
Proof.
  intros Hok. destruct n as [focused|containerId|focused|cmd focused]; cbn [handle].
  - unfold windowAdded. destruct focused as [c|]; [|done].
    destruct (isExcluded (Some c)); [done|]. apply pushWindow_effect.
  - apply removeWindow_returns.
  - unfold windowFocused. destruct (isExcluded focused); [done|].
    apply setStackLayout_effect.
  - destruct (onBinding_cases cmd focused s)
      as [[-> ->]|[->|[->|[->|[->| ->]]]]]; [| | | | |done].
    + destruct focused as [fw|].
      * apply moveUp_effect. destruct Hok as [Hs|Hn]; [done|]. by destruct (Hn fw).
      * by destruct s.
    + apply moveDown_effect.
    + apply rotateCCW_effect.
    + apply rotateCW_effect.
    + apply swapMaster_effect.
Qed.

Lemma handlers_return_witness :
  returns (handle (Binding "nop swlm move up" (Some (window 1)))
             (MkManager 2 [1] None None)) = true.
Proof.
  apply (handlers_return (Binding "nop swlm move up" (Some (window 1)))
           (MkManager 2 [1] None None)).
  left. discriminate.
Defined.

Lemma handle_exclusive (n : Notification) (s : Manager) :
  adds_untracked n s -> exclusive s -> exclusive (final (handle n s)).
Proof.
  intros Hadd Hex. destruct n as [focused|containerId|focused|cmd focused]; cbn [handle].
  - unfold windowAdded. destruct focused as [c|]; [|done].
    destruct (isExcluded (Some c)) eqn:Hexc; [done|].
    destruct (Hadd Hexc) as [Hm Hs].
    destruct (pushWindow_effect (con_id c) s) as [-> _].
    unfold exclusive in *. cbn.
    apply NoDup_cons in Hex as [Hms Hnd].
    destruct (masterId s =? 0).
    + rewrite app_nil_r. by apply NoDup_cons.
    + apply NoDup_cons. split.
      * rewrite elem_of_app, list_elem_of_singleton. intros [?|?]; done.
      * rewrite (Permutation_app_comm (stackIds s)). cbn. by apply NoDup_cons.
  - unfold windowRemoved. unfold exclusive in *.
    apply NoDup_cons in Hex as [Hms Hnd].
    destruct (decide (masterId s = containerId)) as [<-|Hne].
    + destruct s as [m l wd lay]. cbn [masterId stackIds] in *.
      rewrite removeWindow_master. destruct (popWindow_effect (MkManager m l wd lay)) as [-> _].
      cbn [stackIds masterWidth stackLayout].
      destruct (snoc_cases l) as [->|(init & t & ->)].
      * cbn. apply NoDup_singleton.
      * rewrite unsnoc_snoc. cbn.
        by rewrite (Permutation_app_comm init) in Hnd.
    + destruct (removeWindow_effect containerId s Hne)
        as (_ & _ & [[_ ->]|(pre & post & E & _ & ->)]); [by apply NoDup_cons|].
      cbn. rewrite E in Hms, Hnd. apply NoDup_cons. split.
      * rewrite elem_of_app in *. rewrite elem_of_cons in Hms. tauto.
      * apply NoDup_app in Hnd as (Hpre & Hdis & Hpost).
        apply NoDup_cons in Hpost as [_ Hpost].
        apply NoDup_app. repeat split; [done| |done].
        intros x Hx Hx'. apply (Hdis x Hx). by right.
  - unfold windowFocused. destruct (isExcluded focused); [done|].
    by destruct (setStackLayout_effect s) as [-> _].
  - destruct (onBinding_cases cmd focused s)
      as [[_ ->]|[->|[->|[->|[->| ->]]]]]; [| | | | |done];
      eapply rearranged_exclusive; try exact Hex.
    + apply moveUp_effect.
    + apply moveDown_effect.
    + apply rotateCCW_effect.
    + apply rotateCW_effect.
    + apply swapMaster_effect.
Qed.

(** From the empty model, while every window-added notification carries a
    window that is not tracked yet, no identifier is in two positions of
    master and stack. *)
Theorem exclusive_when_adds_untracked (wd : option Z) (lay : option string) (s : Manager) :
  reachable_untracked wd lay s -> exclusive s.
Proof.
  induction 1 as [|s n Hs IH Hadd].
  - unfold exclusive. cbn. apply NoDup_singleton.
  - by apply handle_exclusive.
Qed.

Lemma exclusive_when_adds_untracked_witness :
  let s := after_notifications
             [WindowAdded (Some (window 1)); WindowAdded (Some (window 2));
              WindowAdded (Some (window 3)); WindowRemoved 2;
              Binding "nop swlm swap master" (Some (window 1))]
             (init None None) in
  s = MkManager 1 [3] None None /\ exclusive s.
Proof.
  split; [reflexivity|].
  apply (exclusive_when_adds_untracked None None).
  cbn [after_notifications fold_left].
  repeat (apply reach_step; [|try exact I]);
    [apply reach_init|..];
    (intros _; split; [vm_compute; discriminate|]);
    apply (bool_decide_unpack _); vm_compute; reflexivity.
Defined.

(** Every binding leaves the tracked identifiers what they were, master
    and stack together, in some arrangement: navigation neither adds nor
    removes an identifier, also when it raises. *)
Theorem bindings_rearrange (cmd : string) (focused : option Con) (s : Manager) :
  rearranged s (final (onBinding cmd focused s)).
Proof.
  destruct (onBinding_cases cmd focused s)
    as [[_ ->]|[->|[->|[->|[->| ->]]]]]; [| | | | |done].
  - apply moveUp_effect.
  - apply moveDown_effect.
  - apply rotateCCW_effect.
  - apply rotateCW_effect.
  - apply swapMaster_effect.
Qed.

(** With master 3 and stack [1; 2], swapMaster with window 1 focused makes
    1 the master and puts 3 where 1 was; it swaps the two containers and
    focuses the previous master. *)
Theorem scenario_swapMaster_from_stack (wd : option Z) (lay : option string) :
  swapMaster (Some (window 1)) (MkManager 3 [1; 2] wd lay) =
  (Returned tt, MkManager 1 [3; 2] wd lay,
   ["[con_id=1] swap container with con_id 3"; "[con_id=3] focus"]).
Proof. reflexivity. Qed.

(** A window pushed into the empty model and removed at once leaves the
    empty model, without a command. *)
Theorem push_then_remove_is_empty (windowId : Z) (wd : option Z) (lay : option string) :
  let pushed := pushWindow windowId (init wd lay) in
  let removed := removeWindow windowId (final pushed) in
  final removed = init wd lay /\
  issued pushed = [] /\ issued removed = [] /\
  returns pushed && returns removed = true.
Proof.
  cbn zeta.
  change (final (pushWindow windowId (init wd lay))) with (MkManager windowId [] wd lay).
  rewrite removeWindow_master, popWindow_empty. by repeat split.
Qed.

(** moveUp and then moveDown with the same window focused put the stack
    back in its order and keep the master, when the focused identifier is
    not the master, is in the stack, is not the identifier at the top of
    the stack, and differs from the neighbour above its first
    occurrence. *)
Theorem moveUp_then_moveDown (fw : Con) (m : Z) (pre post : list Z) (y t : Z)
    (wd : option Z) (lay : option string) :
  con_id fw ∉ pre ->
  last (y :: post) = Some t -> t <> con_id fw ->
  con_id fw <> m -> con_id fw <> y ->
  let s := MkManager m (pre ++ con_id fw :: y :: post) wd lay in
  final (moveDown (Some fw) (final (moveUp (Some fw) s))) = s.
Proof.
  intros Hpre Hlast Ht Hm Hy s. subst s.
  rewrite (moveUp_swap m wd lay fw pre post y t) by done. cbn [final fst snd].
  by rewrite moveDown_swap.
Qed.

Lemma moveUp_then_moveDown_witness :
  final (moveDown (Some (window 2))
           (final (moveUp (Some (window 2)) (MkManager 9 [1; 2; 3; 4] None None))))
  = MkManager 9 [1; 2; 3; 4] None None.
Proof.
  apply (moveUp_then_moveDown (window 2) 9 [1] [4] 3 4 None None);
    try discriminate; try reflexivity.
  cbn [con_id window]. intros Hin.
  apply elem_of_cons in Hin as [Hin|Hin]; [discriminate Hin|].
  by apply not_elem_of_nil in Hin.
Defined.

(** ** The remaining navigation methods, case by case *)

(** moveUp with a focused window [fw]
    - raises IndexError over an empty stack and leaves the manager as it
      was;
    - over a stack of one element, or when the focused window is the top
      of the stack, makes the old top the master and the old master the
      new top, with one swap command;
    - when the focused window is in the stack below the top, exchanges its
      first occurrence with the neighbour above it, with one swap command;
    - over a stack of two or more that does not hold the focused window
      (the master is focused, or an untracked window) does nothing. *)
Theorem moveUp_cases (fw : Con) (m : Z) (l : list Z) (wd : option Z) (lay : option string) :
  let s := MkManager m l wd lay in
  (l = [] -> moveUp (Some fw) s = (Raised IndexError, s, [])) /\
  (forall init t,
     l = init ++ [t] -> init = [] \/ con_id fw = t ->
     moveUp (Some fw) s =
     (Returned tt, MkManager t (init ++ [m]) wd lay, [cmd_swap t m])) /\
  (forall pre y post t,
     l = pre ++ con_id fw :: y :: post ->
     con_id fw ∉ pre -> last (y :: post) = Some t -> t <> con_id fw ->
     moveUp (Some fw) s =
     (Returned tt, MkManager m (pre ++ y :: con_id fw :: post) wd lay,
      [cmd_swap (con_id fw) y])) /\
  ((2 <= length l)%nat -> con_id fw ∉ l ->
   moveUp (Some fw) s = (Returned tt, s, [])).
Proof.
  intros s. subst s. repeat split.
  - intros ->. apply moveUp_empty.
  - intros init t -> Hcase. by apply moveUp_top.
  - intros pre y post t -> Hpre Hlast Ht. by apply moveUp_swap with t.
  - apply moveUp_absent.
Qed.

(** swapMaster
    - does nothing over an empty stack, whatever is focused, and nothing
      without a focused window;
    - with the master focused, makes the old top the master and the old
      master the new top, with one swap command;
    - with a window of the stack focused, puts it in the master slot and
      the old master at its first position in the stack, swaps the two
      containers and focuses the old master;
    - with a focused window that is neither master nor in the stack does
      nothing.
    It returns in every case. *)
Theorem swapMaster_cases (fw : Con) (m : Z) (l : list Z) (wd : option Z) (lay : option string) :
  let s := MkManager m l wd lay in
  (forall focused, l = [] -> swapMaster focused s = (Returned tt, s, [])) /\
  swapMaster None s = (Returned tt, s, []) /\
  (forall init t,
     l = init ++ [t] -> con_id fw = m ->
     swapMaster (Some fw) s =
     (Returned tt, MkManager t (init ++ [m]) wd lay, [cmd_swap t m])) /\
  (forall pre post,
     l = pre ++ con_id fw :: post -> con_id fw <> m -> con_id fw ∉ pre ->
     swapMaster (Some fw) s =
     (Returned tt, MkManager (con_id fw) (pre ++ m :: post) wd lay,
      [cmd_swap (con_id fw) m; cmd_focus m])) /\
  (con_id fw <> m -> con_id fw ∉ l ->
   swapMaster (Some fw) s = (Returned tt, s, [])) /\
  (forall focused, returns (swapMaster focused s) = true).
Proof.
  intros s. subst s. repeat split.
  - intros focused ->. apply swapMaster_empty.
  - apply swapMaster_none.
  - intros init t -> Hm. by apply swapMaster_master.
  - intros pre post -> Hm Hpre. by apply swapMaster_stack.
  - apply swapMaster_absent.
  - intros focused. apply swapMaster_effect.
Qed.

(** The rotations do nothing over a stack of fewer than two elements.
    Over bottom [b], middle [mid] and top [t], rotateCCW makes the top the
    master and the old master the new bottom: it swaps the two containers
    and moves the old master to a mark on the old bottom.  rotateCW makes
    the bottom the master and the old master the new top: it swaps the two
    containers, moves the old master to a mark on the top, focuses it,
    moves it up and focuses the new master. *)
Theorem rotation_cases (m : Z) (l : list Z) (wd : option Z) (lay : option string) :
  let s := MkManager m l wd lay in
  ((length l < 2)%nat ->
   rotateCCW s = (Returned tt, s, []) /\ rotateCW s = (Returned tt, s, [])) /\
  (forall b mid t,
     l = b :: mid ++ [t] ->
     rotateCCW s =
       (Returned tt, MkManager t (m :: b :: mid) wd lay,
        [cmd_swap t m; cmd_mark b; cmd_move_to_mark m; cmd_unmark b]) /\
     rotateCW s =
       (Returned tt, MkManager b (mid ++ [t; m]) wd lay,
        [cmd_swap b m; cmd_mark t; cmd_move_to_mark m; cmd_unmark t;
         cmd_focus m; cmd_move_up; cmd_focus b])).
Proof.
  intros s. subst s. split.
  - intros Hlt. by rewrite rotateCCW_short, rotateCW_short.
  - intros b mid t ->. split; [apply rotateCCW_run|apply rotateCW_run].
Qed.

(** ** Round trips and cycles *)

(** With at least two stack elements, rotateCW followed by rotateCCW
    leaves the manager as it was. *)
Theorem rotateCW_then_rotateCCW (s : Manager) :
  (2 <= length (stackIds s))%nat ->
  final (rotateCCW (final (rotateCW s))) = s.
Proof.
  destruct s as [m l wd lay]. cbn [stackIds]. intros Hlen.
  destruct l as [|b rest]; [simpl in Hlen; lia|].
  destruct rest as [|b' rest]; [simpl in Hlen; lia|].
  assert (exists t, last (b' :: rest) = Some t) as [t Ht].
  { destruct (last (b' :: rest)) eqn:E; [eauto|]. by apply last_None in E. }
  rewrite (rotateCW_cons m b t (b' :: rest) wd lay Ht). cbn [final fst snd].
  by rewrite (rotateCCW_snoc b b' m (b' :: rest)).
Qed.

Lemma rotateCW_then_rotateCCW_witness :
  final (rotateCCW (final (rotateCW (MkManager 3 [1; 2] None None))))
  = MkManager 3 [1; 2] None None.
Proof.
  apply (rotateCW_then_rotateCCW (MkManager 3 [1; 2] None None)). apply le_n.
Defined.

Lemma rotateCW_shifts (s : Manager) :
  (2 <= length (stackIds s))%nat ->
  let s' := final (rotateCW s) in
  masterId s' :: stackIds s' = stackIds s ++ [masterId s] /\
  masterWidth s' = masterWidth s /\ stackLayout s' = stackLayout s.
Proof.
  destruct s as [m l wd lay]. cbn [stackIds masterId masterWidth stackLayout].
  intros Hlen.
  destruct l as [|b rest]; [simpl in Hlen; lia|].
  destruct rest as [|b' rest]; [simpl in Hlen; lia|].
  assert (exists t, last (b' :: rest) = Some t) as [t Ht].
  { destruct (last (b' :: rest)) eqn:E; [eauto|]. by apply last_None in E. }
  by rewrite (rotateCW_cons m b t (b' :: rest) wd lay Ht).
Qed.

Lemma shift_drop_take (x : Z) (l : list Z) (k : nat) :
  (k <= length l)%nat ->
  drop k (l ++ [x]) ++ take k (l ++ [x]) = drop (S k) (x :: l) ++ take (S k) (x :: l).
Proof.
  intros Hk. rewrite drop_app_le, take_app_le by done. cbn [drop take].
  by rewrite <- app_assoc.
Qed.

(** With at least two stack elements, [k] rotateCW in a row, for [k] up to
    the number of tracked windows, turn master and stack, read as one
    sequence from the master to the top, by [k] places; as many as there
    are tracked windows put the manager back as it was. *)
Theorem rotateCW_cycle (s : Manager) :
  (2 <= length (stackIds s))%nat ->
  (forall k, (k <= S (length (stackIds s)))%nat ->
     let s' := after (replicate k RotateCW) s in
     masterId s' :: stackIds s' =
       drop k (masterId s :: stackIds s) ++ take k (masterId s :: stackIds s)) /\
  after (replicate (S (length (stackIds s))) RotateCW) s = s.
Proof.
  intros Hlen.
  assert (forall k s0,
            (2 <= length (stackIds s0))%nat -> (k <= S (length (stackIds s0)))%nat ->
            let s' := after (replicate k RotateCW) s0 in
            masterId s' :: stackIds s' =
              drop k (masterId s0 :: stackIds s0) ++ take k (masterId s0 :: stackIds s0) /\
            masterWidth s' = masterWidth s0 /\ stackLayout s' = stackLayout s0) as Hturn.
  { induction k as [|k IH]; intros s0 Hlen0 Hk.
    - cbn. by rewrite app_nil_r.
    - cbn [replicate after fold_left perform].
      destruct (rotateCW_shifts s0 Hlen0) as (Hshift & Hwd & Hlay).
      assert (length (stackIds (final (rotateCW s0))) = length (stackIds s0)) as Hl.
      { apply (f_equal length) in Hshift. rewrite length_app in Hshift.
        cbn [length] in Hshift. lia. }
      destruct (IH (final (rotateCW s0))) as (Hk' & Hwd' & Hlay'); [lia|lia|].
      cbn zeta in Hk'. unfold after in Hk', Hwd', Hlay'.
      rewrite Hwd', Hlay', Hk', Hshift. split; [|done].
      apply shift_drop_take. lia. }
  split.
  - intros k Hk. by apply Hturn.
  - destruct (Hturn (S (length (stackIds s))) s Hlen (le_n _)) as (Hk & Hwd & Hlay).
    cbn zeta in Hk.
    change (S (length (stackIds s))) with (length (masterId s :: stackIds s)) in Hk at 3 4.
    rewrite drop_all, take_ge in Hk by done. cbn [app] in Hk.
    destruct (after _ s) as [m' l' wd' lay'], s as [m l wd lay].
    cbn in Hk, Hwd, Hlay. by simplify_eq.
Qed.

Lemma rotateCW_cycle_witness :
  (forall k, (k <= 3)%nat ->
     let s' := after (replicate k RotateCW) (MkManager 3 [1; 2] None None) in
     masterId s' :: stackIds s' = drop k [3; 1; 2] ++ take k [3; 1; 2]) /\
  after (replicate 3 RotateCW) (MkManager 3 [1; 2] None None)
  = MkManager 3 [1; 2] None None.
Proof.
  apply (rotateCW_cycle (MkManager 3 [1; 2] None None)). apply le_n.
Defined.

(** swapMaster with a window of the stack focused, then swapMaster with
    the previous master focused (the window the first call focuses),
    leaves the manager as it was, provided neither identifier occurs in
    the stack below the swapped position. *)
Theorem swapMaster_twice (fw fw' : Con) (m : Z) (pre post : list Z)
    (wd : option Z) (lay : option string) :
  con_id fw <> m -> con_id fw ∉ pre -> m ∉ pre -> con_id fw' = m ->
  let s := MkManager m (pre ++ con_id fw :: post) wd lay in
  final (swapMaster (Some fw') (final (swapMaster (Some fw) s))) = s.
Proof.
  intros Hm Hpre Hmpre Hfw' s. subst s.
  rewrite swapMaster_stack by done. cbn [final fst snd].
  rewrite <- Hfw'. rewrite swapMaster_stack; [done|congruence|by rewrite Hfw'].
Qed.

Lemma swapMaster_twice_witness :
  final (swapMaster (Some (window 3))
           (final (swapMaster (Some (window 1)) (MkManager 3 [1; 2] None None))))
  = MkManager 3 [1; 2] None None.
Proof.
  apply (swapMaster_twice (window 1) (window 3) 3 [] [2] None None);
    try discriminate; try reflexivity; apply not_elem_of_nil.
Defined.

(** ** The model as an ordered list of windows *)

Lemma tracked_pushWindow (windowId : Z) (s : Manager) :
  tracked (final (pushWindow windowId s)) =
  tracked s ++ (if windowId =? 0 then [] else [windowId]).
Proof. by destruct (pushWindow_effect windowId s) as [-> _]. Qed.


(** Pushing non-zero identifiers one after the other appends them, in
    order, to the tracked windows, and the last one pushed is the master:
    from the empty model the tracked windows are exactly the pushed ones,
    oldest at the bottom of the stack. *)
Theorem pushes_append (s : Manager) (ws : list Z) :
  Forall (fun w => w <> 0) ws ->
  let s' := after (map Push ws) s in
  tracked s' = tracked s ++ ws /\
  (forall w, last ws = Some w -> masterId s' = w).
Proof.
  revert s. induction ws as [|w ws IH]; intros s Hws.
  { cbn. split; [by rewrite app_nil_r|done]. }
  apply Forall_cons in Hws as [Hw Hws].
  cbn [map after fold_left perform].
  destruct (IH (final (pushWindow w s)) Hws) as [Htr Hlast].
  cbn zeta in Htr, Hlast. unfold after in Htr, Hlast. split.
  - rewrite Htr, tracked_pushWindow.
    destruct (Z.eqb_spec w 0); [done|]. by rewrite <- app_assoc.
  - intros w' Hw'. destruct ws as [|w2 ws].
    + injection Hw' as <-. cbn [map fold_left].
      by destruct (pushWindow_effect w s) as [-> _].
    + apply Hlast. by rewrite last_cons_cons in Hw'.
Qed.

Lemma pushes_append_witness :
  let s' := after (map Push [4; 5; 6]) (init None None) in
  tracked s' = tracked (init None None) ++ [4; 5; 6] /\
  (forall w, last [4; 5; 6] = Some w -> masterId s' = w).
Proof.
  apply (pushes_append (init None None) [4; 5; 6]).
  repeat constructor; discriminate.
Defined.





(** ** Reconciliation *)

Lemma setStackLayout_run (s : Manager) :
  exists c, setStackLayout s = (Returned tt, s, c).
Proof. destruct s as [m [|b l] wd lay]; eexists; reflexivity. Qed.

Lemma existsb_eqb_In (v : Z) (l : list Z) :
  existsb (Z.eqb v) l = true <-> v ∈ l.
Proof.
  rewrite existsb_exists, list_elem_of_In. split.
  - intros (x & Hx & E). apply Z.eqb_eq in E. by subst.
  - intros Hv. exists v. by rewrite Z.eqb_refl.
Qed.

(** One round of the second loop of [arrangeExistingLayout]: an identifier
    that is neither master nor in the stack is pushed, any other is
    skipped. *)
Lemma pushUntracked_round (windowId : Z) (s : Manager) :
  exists c,
    (m <- getMasterId ;;
     inStack <- Deque.mem windowId ;;
     if negb (windowId =? m) && negb inStack then
       setStackLayout ;;;
       command (cmd_focus windowId) ;;;
       pushWindow windowId
     else ret tt) s =
    (Returned tt,
     if bool_decide (windowId <> masterId s /\ windowId ∉ stackIds s)
     then final (pushWindow windowId s) else s,
     c).
Proof.
  destruct s as [m l wd lay]. cbn [masterId stackIds].
  rewrite (bind_silent _ _ _ m (MkManager m l wd lay)) by done.
  rewrite (bind_silent _ _ _ (existsb (Z.eqb windowId) l) (MkManager m l wd lay)) by done.
  destruct (existsb (Z.eqb windowId) l) eqn:Hin.
  { apply existsb_eqb_In in Hin. rewrite andb_false_r.
    rewrite bool_decide_eq_false_2 by tauto. by eexists. }
  assert (windowId ∉ l) as Hout.
  { intros Hl. apply existsb_eqb_In in Hl. congruence. }
  destruct (Z.eqb_spec windowId m) as [->|Hne]; cbn [negb andb].
  { rewrite bool_decide_eq_false_2 by tauto. by eexists. }
  rewrite bool_decide_eq_true_2 by done.
  destruct (setStackLayout_run (MkManager m l wd lay)) as [c1 Hc1].
  destruct (pushWindow_run windowId m l wd lay) as [c2 Hc2].
  eexists. eapply bind_run; [exact Hc1|].
  eapply bind_run; [reflexivity|]. by rewrite Hc2.
Qed.

(** A loop without [return] whose rounds all return establishes what the
    rounds maintain; the invariant may speak of the items seen so far. *)
Lemma for_each_rounds {A} (P : list A -> Manager -> Prop)
    (body : A -> M unit) (l : list A) (s : Manager) :
  P [] s ->
  (forall seen x rest s0,
     l = seen ++ x :: rest -> P seen s0 ->
     exists s1 c, body x s0 = (Returned tt, s1, c) /\ P (seen ++ [x]) s1) ->
  exists s' c, for_each l body s = (Returned tt, s', c) /\ P l s'.
Proof.
  revert P s. induction l as [|x l IH]; intros P s HP Hround.
  { by exists s, []. }
  destruct (Hround [] x l s eq_refl HP) as (s1 & c1 & Hx & HP1).
  destruct (IH (fun seen => P (x :: seen)) s1 HP1) as (s' & c' & Hl & HP').
  { intros seen y rest s0 -> Hseen.
    by apply (Hround (x :: seen) y rest s0). }
  exists s', (c1 ++ c'). split; [|done].
  cbn [for_each]. by eapply bind_run.
Qed.

Lemma pushUntracked_rounds (P : list Z -> Manager -> Prop)
    (untracked : list Z) (s : Manager) :
  P [] s ->
  (forall seen x rest s0,
     untracked = seen ++ x :: rest -> P seen s0 ->
     P (seen ++ [x])
       (if bool_decide (x <> masterId s0 /\ x ∉ stackIds s0)
        then final (pushWindow x s0) else s0)) ->
  returns (pushUntracked untracked s) = true /\
  P untracked (final (pushUntracked untracked s)).
Proof.
  intros HP Hround. unfold pushUntracked.
  edestruct (for_each_rounds P) as (s' & c & Hrun & HP'); [exact HP| |].
  { intros seen x rest s0 E Hseen.
    destruct (pushUntracked_round x s0) as [c Hc].
    eexists _, c. split; [exact Hc|]. by eapply Hround. }
  destruct (setStackLayout_run s') as [c' Hc'].
  by rewrite (bind_run _ _ _ _ _ _ _ _ _ Hrun Hc').
Qed.

(** Reconciliation returns from every state and workspace, keeps
    identifiers in at most one position when they were, and keeps a master
    over a non-empty stack when no collected identifier is 0. *)
Theorem reconciliation_keeps_invariants (workspace : Con) (s : Manager) :
  let s' := final (arrangeExistingLayout workspace s) in
  returns (arrangeExistingLayout workspace s) = true /\
  (exclusive s -> exclusive s') /\
  (stack_has_master s -> 0 ∉ collectUntracked workspace -> stack_has_master s').
Proof.
  unfold arrangeExistingLayout. cbn zeta. split; [|split].
  - by apply (pushUntracked_rounds (fun _ _ => True)).
  - intros Hex. apply (pushUntracked_rounds (fun _ s0 => exclusive s0)); [done|].
    intros seen x rest s0 _ Hs0. case_bool_decide as Hx; [|done].
    apply (handle_exclusive (WindowAdded (Some (window x))) s0); [|done].
    by intros _.
  - intros Hs Hzero.
    apply (pushUntracked_rounds (fun _ s0 => stack_has_master s0)); [done|].
    intros seen x rest s0 E Hs0. case_bool_decide as Hx; [|done].
    apply pushWindow_stack_has_master; [|done].
    intros ->. apply Hzero. rewrite E, elem_of_app. right. apply list_elem_of_here.
Qed.

(** After reconciliation every collected identifier other than 0 is
    tracked, and so is every identifier that was tracked before. *)
Theorem reconciliation_tracks_collected (workspace : Con) (s : Manager) (x : Z) :
  x <> 0 ->
  x ∈ collectUntracked workspace \/ x ∈ tracked s ->
  x ∈ tracked (final (arrangeExistingLayout workspace s)).
Proof.
  intros Hx Hin. unfold arrangeExistingLayout. cbn zeta.
  apply (pushUntracked_rounds
           (fun seen s0 => (x ∈ seen \/ x ∈ tracked s -> x ∈ tracked s0))).
  - intros [Hnil|?]; [by apply not_elem_of_nil in Hnil|done].
  - intros seen y rest s0 E Hseen Hy.
    assert (x ∈ tracked s0 \/ x = y) as [Hold| ->].
    { rewrite elem_of_app, list_elem_of_singleton in Hy. tauto. }
    + case_bool_decide; [|done]. rewrite tracked_pushWindow, elem_of_app. by left.
    + case_bool_decide as Hg.
      * rewrite tracked_pushWindow, elem_of_app. right.
        destruct (Z.eqb_spec y 0); [done|]. apply list_elem_of_here.
      * unfold tracked. rewrite elem_of_app.
        destruct (decide (y ∈ stackIds s0)) as [?|Hout]; [by left|right].
        assert (y = masterId s0) as -> by (destruct (decide (y = masterId s0)); tauto).
        destruct (Z.eqb_spec (masterId s0) 0); [done|]. apply list_elem_of_here.
  - exact Hin.
Qed.

Lemma reconciliation_tracks_collected_witness :
  10 ∈ tracked (final (arrangeExistingLayout nested_workspace (init None None))).
Proof.
  apply (reconciliation_tracks_collected nested_workspace (init None None) 10).
  - discriminate.
  - left. apply list_elem_of_here.
Defined.

(** When the collected identifiers are distinct, none is 0 and none
    is tracked yet, reconciliation appends them to the tracked windows in
    the order they were collected, and the last one collected is the
    master afterwards (the master is unchanged when nothing was
    collected). *)
Theorem reconciliation_order (workspace : Con) (s : Manager) :
  NoDup (collectUntracked workspace) ->
  0 ∉ collectUntracked workspace ->
  (forall x, x ∈ collectUntracked workspace -> x ∉ tracked s) ->
  tracked (final (arrangeExistingLayout workspace s)) =
    tracked s ++ collectUntracked workspace /\
  masterId (final (arrangeExistingLayout workspace s)) =
    default (masterId s) (last (collectUntracked workspace)).
Proof.
  intros Hnd Hzero Hnew. unfold arrangeExistingLayout. cbn zeta.
  apply (pushUntracked_rounds
           (fun seen s0 => tracked s0 = tracked s ++ seen /\
                           masterId s0 = default (masterId s) (last seen))).
  - by rewrite app_nil_r.
  - intros seen x rest s0 E [Hs0 _].
    assert (x <> 0) as Hx0.
    { intros ->. apply Hzero. rewrite E, elem_of_app. right. apply list_elem_of_here. }
    assert (x ∉ tracked s0) as Hx.
    { rewrite Hs0, elem_of_app. intros [Hold|Hseen].
      - apply (Hnew x); [|done]. rewrite E, elem_of_app. right. apply list_elem_of_here.
      - rewrite E in Hnd. apply NoDup_app in Hnd as (_ & Hdis & _).
        apply (Hdis x Hseen), list_elem_of_here. }
    rewrite bool_decide_eq_true_2.
    + split.
      * rewrite tracked_pushWindow, Hs0.
        destruct (Z.eqb_spec x 0); [done|]. by rewrite app_assoc.
      * destruct (pushWindow_effect x s0) as [-> _]. by rewrite last_snoc.
    + unfold tracked in Hx. rewrite elem_of_app in Hx. split; [|tauto].
      intros ->. destruct (Z.eqb_spec (masterId s0) 0); [done|].
      apply Hx. right. apply list_elem_of_here.
Qed.

Lemma reconciliation_order_witness :
  let s := MkManager 7 [5] None None in
  (collectUntracked tiled_workspace = [1; 2; 3] /\
   final (arrangeExistingLayout tiled_workspace s) =
     MkManager 3 [5; 7; 1; 2] None None) /\
  (tracked (final (arrangeExistingLayout tiled_workspace s)) =
     tracked s ++ collectUntracked tiled_workspace /\
   masterId (final (arrangeExistingLayout tiled_workspace s)) =
     default (masterId s) (last (collectUntracked tiled_workspace))).
Proof.
  split; [split; reflexivity|].
  apply (reconciliation_order tiled_workspace (MkManager 7 [5] None None)).
  - apply (bool_decide_unpack _). reflexivity.
  - apply (bool_decide_unpack _). reflexivity.
  - intros x Hx.
    change (collectUntracked tiled_workspace) with [1; 2; 3] in Hx.
    apply elem_of_cons in Hx as [->|Hx]; [by apply (bool_decide_unpack _)|].
    apply elem_of_cons in Hx as [->|Hx]; [by apply (bool_decide_unpack _)|].
    apply list_elem_of_singleton in Hx as ->. by apply (bool_decide_unpack _).
Defined.

(** Over a workspace whose nodes are all leaves, the reconciliation pass
    collects the identifiers of exactly the nodes that are not excluded,
    in the order of the workspace. *)
Theorem collectUntracked_of_leaves (workspace : Con) :
  Forall (fun node => con_nodes node = []) (con_nodes workspace) ->
  collectUntracked workspace =
  con_id <$> filter (fun node => isExcluded (Some node) = false) (con_nodes workspace).
Proof.
  unfold collectUntracked.
  induction (con_nodes workspace) as [|node nodes IH]; intros Hleaves; [done|].
  apply Forall_cons in Hleaves as [Hleaf Hleaves].
  cbn [flat_map]. rewrite IH by done. rewrite Hleaf. cbn [length Nat.eqb].
  destruct (isExcluded (Some node)) eqn:Hexc.
  - by rewrite filter_cons_False by congruence.
  - by rewrite filter_cons_True by done.
Qed.

Lemma collectUntracked_of_leaves_witness :
  collectUntracked
    (MkCon 100 "workspace" None (Some 1)
       [window 1; MkCon 2 "con" (Some "user_on") (Some 1) []; window 3]) =
  con_id <$> filter (fun node => isExcluded (Some node) = false)
               [window 1; MkCon 2 "con" (Some "user_on") (Some 1) []; window 3].
Proof.
  apply (collectUntracked_of_leaves
           (MkCon 100 "workspace" None (Some 1)
              [window 1; MkCon 2 "con" (Some "user_on") (Some 1) []; window 3])).
  repeat constructor.
Defined.

(** ** The commands of insertion, removal and layout maintenance *)

(** pushWindow issues no command when the master slot is empty.  Over a
    master and an empty stack it moves the new window to a mark on the
    master and moves it left; over a non-empty stack it moves the new
    window to a mark on the top of the stack, focuses it, moves it up and
    swaps it with the master.  In both cases it ends by resizing the new
    master when a master width is configured. *)
Theorem pushWindow_commands (windowId m : Z) (l : list Z)
    (wd : option Z) (lay : option string) :
  issued (pushWindow windowId (MkManager m l wd lay)) =
  if m =? 0 then []
  else
    match last l with
    | None =>
        [cmd_mark m; cmd_move_to_mark windowId; cmd_unmark m; cmd_move_left]
    | Some t =>
        [cmd_mark t; cmd_move_to_mark windowId; cmd_unmark t;
         cmd_focus windowId; cmd_move_up; cmd_swap windowId m]
    end ++ match wd with Some v => [cmd_resize windowId v] | None => [] end.
Proof.
  destruct (m =? 0) eqn:Hm.
  { unfold pushWindow. rewrite (bind_silent _ _ _ m (MkManager m l wd lay)) by done.
    by rewrite Hm. }
  destruct (snoc_cases l) as [->|(init & t & ->)]; [|rewrite last_snoc];
    match goal with
    | |- issued ?r = ?c =>
        assert (exists s' c', r = (Returned tt, s', c') /\ c' = c) as (s' & c' & -> & <-);
          [eexists _, _; split; [|shelve]|done]
    end; unfold pushWindow, moveWindow.
  - step. rewrite Hm. step. change (Z.of_nat (length []) =? 0) with true. steps.
  - step. rewrite Hm. step. rewrite length_snoc_eqb. steps.
  Unshelve. all: reflexivity.
Qed.

Lemma popWindow_over_stack (m a t : Z) (init : list Z)
    (wd : option Z) (lay : option string) :
  popWindow (MkManager m ((a :: init) ++ [t]) wd lay) =
  (Returned tt, MkManager t (a :: init) wd lay,
   [cmd_focus t; cmd_move_left]
     ++ match wd with Some v => [cmd_resize t v] | None => [] end).
Proof.
  unfold popWindow. with_commands.
  step. rewrite (length_snoc_eqb (a :: init) t).
  do 3 step. change (negb (Z.of_nat (length (a :: init)) =? 0)) with true.
  steps.
  Unshelve. reflexivity.
Qed.

(** removeWindow, case by case:
    - the master over an empty stack: the master slot becomes empty, no
      command;
    - the master over a stack of one: the stacked window becomes master
      and is focused;
    - the master over a larger stack: the top becomes master, is focused
      and moved left, and is resized when a master width is configured;
    - a window of the stack: its first occurrence goes, no command;
    - any other identifier: nothing changes, no command. *)
Theorem removeWindow_cases (windowId m : Z) (l : list Z)
    (wd : option Z) (lay : option string) :
  let s := MkManager m l wd lay in
  (windowId = m -> l = [] ->
   removeWindow windowId s = (Returned tt, MkManager 0 [] wd lay, [])) /\
  (forall t, windowId = m -> l = [t] ->
   removeWindow windowId s = (Returned tt, MkManager t [] wd lay, [cmd_focus t])) /\
  (forall init t, windowId = m -> l = init ++ [t] -> init <> [] ->
   removeWindow windowId s =
   (Returned tt, MkManager t init wd lay,
    [cmd_focus t; cmd_move_left]
      ++ match wd with Some v => [cmd_resize t v] | None => [] end)) /\
  (forall pre post, windowId <> m -> l = pre ++ windowId :: post -> windowId ∉ pre ->
   removeWindow windowId s = (Returned tt, MkManager m (pre ++ post) wd lay, [])) /\
  (windowId <> m -> windowId ∉ l -> removeWindow windowId s = (Returned tt, s, [])).
Proof.
  intros s. subst s. repeat split.
  - intros -> ->. by rewrite removeWindow_master.
  - intros t -> ->. rewrite removeWindow_master. reflexivity.
  - intros init t -> -> Hinit. rewrite removeWindow_master.
    destruct init as [|a init]; [done|]. apply popWindow_over_stack.
  - intros pre post Hm -> Hpre. apply removeWindow_stack; [congruence|done].
  - intros Hm Hl. apply removeWindow_untracked; [congruence|done].
Qed.

(** windowFocused never changes the manager and never raises.  It does
    nothing for an excluded focus; otherwise it splits the bottom of the
    stack vertically and gives it the configured stack layout ("splitv"
    when none or an empty one is configured), or, over an empty stack,
    splits the master horizontally with layout "splith": on the empty
    model these two commands are addressed to container 0. *)
Lemma windowFocused_commands (focused : option Con) (m : Z) (l : list Z)
    (wd : option Z) (lay : option string) :
  let s := MkManager m l wd lay in
  final (windowFocused focused s) = s /\
  returns (windowFocused focused s) = true /\
  issued (windowFocused focused s) =
  if isExcluded focused then []
  else
    match l with
    | [] => [cmd_split_horizontal m; cmd_layout m "splith"]
    | b :: _ =>
        [cmd_split_vertical b;
         cmd_layout b (match lay with
                       | Some k => if String.eqb k "" then "splitv" else k
                       | None => "splitv"
                       end)]
    end.
Proof.
  intros s. subst s. unfold windowFocused.
  destruct (isExcluded focused); [done|]. by destruct l.
Qed.

(** A binding command other than the seven the manager knows is ignored:
    no command, no change, no exception. *)
Theorem unknown_binding_is_ignored (cmd : string) (focused : option Con) (s : Manager) :
  cmd ∉ ["nop swlm move up"; "nop swlm move down"; "nop swlm rotate ccw";
         "nop swlm move left"; "nop swlm rotate cw"; "nop swlm move right";
         "nop swlm swap master"] ->
  onBinding cmd focused s = (Returned tt, s, []).
Proof.
  intros Hcmd. unfold onBinding.
  repeat match goal with
         | |- context [String.eqb cmd ?k] =>
             destruct (String.eqb_spec cmd k) as [->|_];
               [exfalso; apply Hcmd; apply (bool_decide_unpack _); reflexivity|]
         end.
  done.
Qed.

Lemma unknown_binding_is_ignored_witness :
  onBinding "nop swlm layout none" (Some (window 1)) (MkManager 3 [1; 2] None None) =
  (Returned tt, MkManager 3 [1; 2] None None, []).
Proof.
  apply (unknown_binding_is_ignored "nop swlm layout none").
  apply (bool_decide_unpack _). reflexivity.
Defined.

(** * The dispatcher *)

(** ** Dictionaries and substrings *)

Lemma dict_get_set_eq {V} (k : Z) (v : V) (d : list (Z * V)) :
  Dict.get k (Dict.set k v d) = Some v.
Proof.
  induction d as [|[k' v'] d IH]; cbn.
  - by rewrite Z.eqb_refl.
  - destruct (Z.eqb_spec k' k) as [->|Hne]; cbn.
    + by rewrite Z.eqb_refl.
    + by destruct (Z.eqb_spec k' k).
Qed.

Lemma dict_get_set_ne {V} (k k' : Z) (v : V) (d : list (Z * V)) :
  k <> k' -> Dict.get k' (Dict.set k v d) = Dict.get k' d.
Proof.
  intros Hne. induction d as [|[k0 v0] d IH]; cbn.
  - by destruct (Z.eqb_spec k k').
  - destruct (Z.eqb_spec k0 k) as [->|Hk0]; cbn.
    + by destruct (Z.eqb_spec k k').
    + by rewrite IH.
Qed.

Lemma dict_mem_get {V} (k : Z) (d : list (Z * V)) :
  Dict.mem k d = false <-> Dict.get k d = None.
Proof. unfold Dict.mem. by destruct (Dict.get k d). Qed.

Lemma prefix_app_l (n1 n2 h : string) :
  String.prefix (n1 +:+ n2) h = true -> String.prefix n1 h = true.
Proof.
  revert h. induction n1 as [|c n1 IH]; intros h; [by destruct h|].
  destruct h as [|c' h]; [done|].
  change (String c n1 +:+ n2) with (String c (n1 +:+ n2)). cbn [String.prefix].
  destruct (Ascii.ascii_dec c c'); [apply IH|done].
Qed.

(** A string that contains a needle contains the beginning of that needle. *)
Lemma str_in_app_l (n1 n2 h : string) :
  str_in (n1 +:+ n2) h = true -> str_in n1 h = true.
Proof.
  induction h as [|c h IH]; cbn [str_in]; rewrite !orb_true_iff.
  - intros [Hp|?]; [|done]. left. by apply prefix_app_l with n2.
  - intros [Hp|Hin]; [left; by apply prefix_app_l with n2|right; by apply IH].
Qed.

Section DispatcherProperties.

Context (absent : Absent) (options : Options).

#[local] Abbreviation Globals := (Dispatcher.Globals absent).
#[local] Abbreviation excluded := (Dispatcher.isExcludedWorkspace options).
#[local] Abbreviation MasterStackManager := (Dispatcher.MasterStackManager absent).

(** ** Events that reach no manager *)

(** An event on an excluded workspace (or with no focused workspace) and a
    window event on a workspace without a manager are dropped: the handler
    returns, the dictionaries are as they were and no command is issued. *)
Theorem unrouted_events_are_dropped (env : Env) (g : Globals)
    (containerId : Z) (command : string) :
  (excluded (focusedWorkspace env) = true ->
   Dispatcher.windowCreated absent options env g = (DReturned tt, g, []) /\
   Dispatcher.windowFocused absent options env g = (DReturned tt, g, []) /\
   Dispatcher.windowClosed absent options env containerId g = (DReturned tt, g, []) /\
   Dispatcher.onBinding absent options env command g = (DReturned tt, g, [])) /\
  (forall w, focusedWorkspace env = Some w ->
             Dict.get (ws_num w) (Dispatcher.managers absent g) = None ->
   Dispatcher.windowCreated absent options env g = (DReturned tt, g, []) /\
   Dispatcher.windowFocused absent options env g = (DReturned tt, g, []) /\
   Dispatcher.windowClosed absent options env containerId g = (DReturned tt, g, [])).
Proof.
  unfold Dispatcher.windowCreated, Dispatcher.windowFocused,
    Dispatcher.windowClosed, Dispatcher.onBinding.
  split.
  - intros Hex. destruct (focusedWorkspace env) as [w|].
    + rewrite Hex. repeat split. by destruct (str_in "nop swlm" command).
    + repeat split. by destruct (str_in "nop swlm" command).
  - intros w -> Hnone. apply dict_mem_get in Hnone.
    destruct (excluded (Some w)); [done|].
    unfold Dispatcher.dbind, Dispatcher.getManagers. by rewrite Hnone.
Qed.

Ltac dunfold :=
  repeat
    (progress
       (unfold Dispatcher.dbind, Dispatcher.dret, Dispatcher.draise,
          Dispatcher.dcommand, Dispatcher.getManagers, Dispatcher.setManagers,
          Dispatcher.getWindows, Dispatcher.setWindows, Dispatcher.dtry_pass,
          Dispatcher.call, Dispatcher.install, Dispatcher.windows_append,
          Dispatcher.windows_remove;
        cbv beta iota;
        cbn [Dispatcher.managers Dispatcher.workspaceWindows])).

(** Decide the tests on literal strings. *)
Ltac decide_strings :=
  repeat match goal with
         | |- context [str_in ?a ?b] =>
             let v := eval vm_compute in (str_in a b) in
             change (str_in a b) with v
         | |- context [String.eqb ?a ?b] =>
             let v := eval vm_compute in (String.eqb a b) in
             change (String.eqb a b) with v
         end.

(** ** Missing entries *)

(** A binding whose command contains "nop swlm move", on a workspace that
    is not excluded and has no manager, raises AttributeError out of the
    handler: the dictionary answers [None] for the missing key and the
    handler reads [overridesMoveBinds] of it.  Nothing is changed and no
    command is issued. *)
Theorem move_binding_without_manager_raises (env : Env) (g : Globals)
    (command : string) (w : Workspace) :
  str_in "nop swlm move" command = true ->
  focusedWorkspace env = Some w ->
  excluded (Some w) = false ->
  Dict.get (ws_num w) (Dispatcher.managers absent g) = None ->
  Dispatcher.onBinding absent options env command g = (DRaised AttributeError, g, []).
Proof.
  intros Hmove Hw Hex Hnone. unfold Dispatcher.onBinding.
  rewrite (str_in_app_l "nop swlm" " move" command Hmove), Hw, Hex, Hmove.
  cbn [negb]. dunfold. by rewrite Hnone.
Qed.

(** A window that opens on a workspace that has a manager but no entry in
    [workspaceWindows] (a manager made by a layout binding on a workspace
    that [setWorkspaceLayoutManager] never saw) raises AttributeError out
    of the handler, before the manager is told: the window is appended to
    [None]. *)
Theorem windowCreated_without_window_list_raises (env : Env) (g : Globals)
    (w : Workspace) (window : Con) (o : Dispatcher.LayoutManager absent) :
  focusedWorkspace env = Some w ->
  excluded (Some w) = false ->
  Dict.get (ws_num w) (Dispatcher.managers absent g) = Some o ->
  Dict.get (ws_num w) (Dispatcher.workspaceWindows absent g) = None ->
  focused env = Some window ->
  Dispatcher.windowCreated absent options env g = (DRaised AttributeError, g, []).
Proof.
  intros Hw Hex Ho Hnone Hwin. unfold Dispatcher.windowCreated.
  rewrite Hw, Hex, Hwin. dunfold. unfold Dict.mem. rewrite Ho.
  cbv beta iota. cbn [negb]. dunfold. by rewrite Hnone.
Qed.

(** ** Events that reach a MasterStack manager *)

(** On a workspace that is not excluded and is managed by a MasterStack
    manager, each of the seven binding commands the manager knows reaches
    its [onBinding]: the manager is left under its key as the method
    leaves it, the dispatcher issues the method's commands and no other,
    and an exception of the method leaves the handler. *)
Theorem bindings_reach_the_manager (env : Env) (g : Globals)
    (command : string) (w : Workspace) (s : Manager) :
  command ∈ ["nop swlm move up"; "nop swlm move down"; "nop swlm rotate ccw";
             "nop swlm move left"; "nop swlm rotate cw"; "nop swlm move right";
             "nop swlm swap master"] ->
  focusedWorkspace env = Some w ->
  excluded (Some w) = false ->
  Dict.get (ws_num w) (Dispatcher.managers absent g) = Some (MasterStackManager s) ->
  let r := onBinding command (focused env) s in
  Dispatcher.onBinding absent options env command g =
  (match outcome r with
   | Returned _ => DReturned tt
   | Raised e => DRaised (ManagerError e)
   end,
   Dispatcher.MkGlobals absent
     (Dict.set (ws_num w) (MasterStackManager (final r)) (Dispatcher.managers absent g))
     (Dispatcher.workspaceWindows absent g),
   issued r).
Proof.
  intros Hcmd Hw Hex Hs r. subst r. unfold Dispatcher.onBinding. rewrite Hw, Hex.
  repeat (apply elem_of_cons in Hcmd as [->|Hcmd]);
    [| | | | | | |by apply not_elem_of_nil in Hcmd];
    decide_strings; cbn [negb]; cbv iota;
    dunfold; unfold Dict.mem; rewrite ?Hs; cbv beta iota;
    cbn [Dispatcher.overridesMoveBinds negb Dispatcher.m_onBinding]; dunfold;
    rewrite ?Hs; cbv beta iota; cbn [Dispatcher.m_onBinding];
    match goal with
    | |- context [Dispatcher.of_run _ ?run] => by destruct run as [[[] ?] ?]
    end.
Qed.

(** On a workspace that is not excluded, the binding "nop swlm layout
    MasterStack" with a focused window puts under the workspace's key a
    MasterStack manager reconciled, from the empty model, over the
    workspace of the focused window: it replaces whatever manager was
    there, issues the commands of the reconciliation, tracks no identifier
    twice, and leaves [workspaceWindows] alone.  With no focused window
    the constructor raises AttributeError and the dictionaries stay as
    they were.  "nop swlm layout none" puts a no-op manager there. *)
Theorem layout_bindings_install_managers (env : Env) (g : Globals) (w : Workspace) :
  focusedWorkspace env = Some w ->
  excluded (Some w) = false ->
  (forall window ws,
     focused env = Some window -> windowWorkspace env = Some ws ->
     let r := arrangeExistingLayout (ws_con ws)
                (init (opt_masterWidth options) (opt_stackLayout options)) in
     Dispatcher.onBinding absent options env "nop swlm layout MasterStack" g =
       (DReturned tt,
        Dispatcher.MkGlobals absent
          (Dict.set (ws_num w) (MasterStackManager (final r))
             (Dispatcher.managers absent g))
          (Dispatcher.workspaceWindows absent g),
        issued r) /\
     exclusive (final r)) /\
  (focused env = None ->
   Dispatcher.onBinding absent options env "nop swlm layout MasterStack" g =
     (DRaised AttributeError, g, [])) /\
  Dispatcher.onBinding absent options env "nop swlm layout none" g =
    (DReturned tt,
     Dispatcher.MkGlobals absent
       (Dict.set (ws_num w) (Dispatcher.NoneManager absent)
          (Dispatcher.managers absent g))
       (Dispatcher.workspaceWindows absent g),
     []).
Proof.
  intros Hw Hex. split; [|split].
  - intros window ws Hwindow Hws. cbn zeta.
    pose proof (reconciliation_keeps_invariants (ws_con ws)
                  (init (opt_masterWidth options) (opt_stackLayout options)))
      as (Hret & Hexcl & _).
    split; [|apply Hexcl, NoDup_singleton].
    unfold Dispatcher.onBinding. rewrite Hw, Hex.
    decide_strings. cbn [negb]. cbv iota. dunfold.
    unfold Dispatcher.newMasterStack. rewrite Hwindow, Hws.
    destruct (arrangeExistingLayout _ _) as [[[[]|e] s'] c]; [done|discriminate Hret].
  - intros Hnone. unfold Dispatcher.onBinding. rewrite Hw, Hex.
    decide_strings. cbn [negb]. cbv iota. dunfold.
    unfold Dispatcher.newMasterStack. by rewrite Hnone.
  - unfold Dispatcher.onBinding. rewrite Hw, Hex.
    decide_strings. cbn [negb]. cbv iota. by dunfold.
Qed.

(** On a workspace that is not excluded and is managed by a MasterStack
    manager, a closed window is taken out of the workspace's window list,
    when the list exists and holds it, and the manager's removeWindow
    runs on its identifier: the handler returns, with the commands of
    removeWindow, whether or not the window was known. *)
Theorem windowClosed_reaches_removeWindow (env : Env) (g : Globals)
    (w : Workspace) (s : Manager) (containerId : Z) :
  focusedWorkspace env = Some w ->
  excluded (Some w) = false ->
  Dict.get (ws_num w) (Dispatcher.managers absent g) = Some (MasterStackManager s) ->
  let r := removeWindow containerId s in
  let windows := Dispatcher.workspaceWindows absent g in
  Dispatcher.windowClosed absent options env containerId g =
  (DReturned tt,
   Dispatcher.MkGlobals absent
     (Dict.set (ws_num w) (MasterStackManager (final r)) (Dispatcher.managers absent g))
     (match Dict.get (ws_num w) windows with
      | Some l =>
          match Deque.remove_first containerId l with
          | Some l' => Dict.set (ws_num w) l' windows
          | None => windows
          end
      | None => windows
      end),
   issued r).
Proof.
  intros Hw Hex Hs r windows. subst r windows.
  unfold Dispatcher.windowClosed. rewrite Hw, Hex. dunfold.
  unfold Dict.mem. rewrite Hs. cbv beta iota. cbn [negb].
  pose proof (removeWindow_returns containerId s) as Hret.
  destruct g as [ms ws]. cbn [Dispatcher.managers Dispatcher.workspaceWindows] in *.
  destruct (Dict.get (ws_num w) ws) as [l|]; cbv beta iota;
    [destruct (Deque.remove_first containerId l) as [l'|]|];
    cbv beta iota; cbn [Dispatcher.managers Dispatcher.workspaceWindows];
    rewrite Hs; cbn [Dispatcher.m_windowRemoved]; unfold windowRemoved;
    destruct (removeWindow containerId s) as [[[[]|e] s'] c];
    try discriminate Hret; reflexivity.
Qed.

(** ** Handlers work on the focused workspace only *)

#[local] Abbreviation untouched := (Dispatcher.untouched absent).
#[local] Abbreviation dfinal := (Dispatcher.dfinal absent).

Lemma untouched_refl (k : Z) (g : Globals) : untouched k g g.
Proof. done. Qed.

Lemma untouched_bind {A B} (k : Z) (m : Dispatcher.D absent A)
    (f : A -> Dispatcher.D absent B) (g : Globals) :
  untouched k g (dfinal (m g)) ->
  (forall a g0, untouched k g0 (dfinal (f a g0))) ->
  untouched k g (dfinal (Dispatcher.dbind absent m f g)).
Proof.
  intros Hm Hf. unfold Dispatcher.dbind.
  destruct (m g) as [[[a|e] g1] c1]; [|done].
  specialize (Hf a g1). destruct (f a g1) as [[o g2] c2].
  unfold Dispatcher.dfinal in *. cbn [fst snd] in *.
  destruct Hm as [Hm1 Hm2], Hf as [Hf1 Hf2]. split; congruence.
Qed.

Lemma untouched_call (k num : Z) method (g : Globals) :
  num <> k -> untouched k g (dfinal (Dispatcher.call absent num method g)).
Proof.
  intros Hne. unfold Dispatcher.call.
  destruct (Dict.get num (Dispatcher.managers absent g)) as [o|]; [|done].
  destruct (method o) as [[out o'] c]. split; [|done].
  by apply dict_get_set_ne.
Qed.

Lemma untouched_install (k num : Z) made (g : Globals) :
  num <> k -> untouched k g (dfinal (Dispatcher.install absent num made g)).
Proof.
  intros Hne. unfold Dispatcher.install.
  destruct made as [[o|e] c]; [|done]. split; [|done]. by apply dict_get_set_ne.
Qed.

Lemma untouched_windows_append (k num x : Z) (g : Globals) :
  num <> k -> untouched k g (dfinal (Dispatcher.windows_append absent num x g)).
Proof.
  intros Hne. unfold Dispatcher.windows_append. dunfold.
  destruct (Dict.get num (Dispatcher.workspaceWindows absent g)); [|done].
  split; [done|]. by apply dict_get_set_ne.
Qed.

Lemma untouched_windows_remove (k num x : Z) (g : Globals) :
  num <> k -> untouched k g (dfinal (Dispatcher.windows_remove absent num x g)).
Proof.
  intros Hne. unfold Dispatcher.windows_remove. dunfold.
  destruct (Dict.get num (Dispatcher.workspaceWindows absent g)) as [l|]; [|done].
  destruct (Deque.remove_first x l); [|done].
  split; [done|]. by apply dict_get_set_ne.
Qed.

Lemma untouched_try_pass (k : Z) (body : Dispatcher.D absent unit) (g : Globals) :
  untouched k g (dfinal (body g)) ->
  untouched k g (dfinal (Dispatcher.dtry_pass absent body g)).
Proof.
  unfold Dispatcher.dtry_pass. by destruct (body g) as [[[a|e] g1] c1].
Qed.

(** Whatever the managers do, the four event handlers leave the manager
    and the window list of every workspace other than the focused one as
    they were, also when they raise. *)
Theorem handlers_touch_the_focused_workspace_only (env : Env) (g : Globals)
    (k containerId : Z) (command : string) :
  (forall w, focusedWorkspace env = Some w -> ws_num w <> k) ->
  untouched k g (dfinal (Dispatcher.windowCreated absent options env g)) /\
  untouched k g (dfinal (Dispatcher.windowFocused absent options env g)) /\
  untouched k g (dfinal (Dispatcher.windowClosed absent options env containerId g)) /\
  untouched k g (dfinal (Dispatcher.onBinding absent options env command g)).
Proof.
  intros Hk.
  unfold Dispatcher.windowCreated, Dispatcher.windowFocused,
    Dispatcher.windowClosed, Dispatcher.onBinding.
  destruct (focusedWorkspace env) as [w|];
    [|repeat split; by destruct (negb (str_in "nop swlm" command))].
  specialize (Hk w eq_refl).
  destruct (excluded (Some w));
    [repeat split; by destruct (negb (str_in "nop swlm" command))|].
  split; [|split; [|split]].
  - apply untouched_bind; [done|]. intros m g0.
    destruct (negb (Dict.mem (ws_num w) m)); [done|].
    apply untouched_bind; [|intros; by apply untouched_call].
    destruct (focused env); [by apply untouched_windows_append|done].
  - apply untouched_bind; [done|]. intros m g0.
    destruct (negb (Dict.mem (ws_num w) m)); [done|]. by apply untouched_call.
  - apply untouched_bind; [done|]. intros m g0.
    destruct (negb (Dict.mem (ws_num w) m)); [done|].
    apply untouched_bind; [|intros; by apply untouched_call].
    by apply untouched_try_pass, untouched_windows_remove.
  - destruct (negb (str_in "nop swlm" command)); [done|].
    apply untouched_bind.
    { destruct (str_in "nop swlm move" command); [|done].
      apply untouched_bind; [done|]. intros m g0.
      by destruct (Dict.get (ws_num w) m). }
    intros passes g0. destruct passes; [by apply untouched_call|].
    destruct (str_in "nop swlm move " command); [done|].
    destruct (String.eqb command "nop swlm layout none"); [by apply untouched_install|].
    destruct (String.eqb command "nop swlm layout MasterStack");
      [by apply untouched_install|].
    destruct (String.eqb command "nop swlm layout Autotiling");
      [by apply untouched_install|].
    apply untouched_bind; [done|]. intros m g1.
    destruct (negb (Dict.mem (ws_num w) m)); [done|]. by apply untouched_call.
Qed.

(** [setWorkspaceLayoutManager] keeps a manager and a window list that
    the workspace already has, and when it returns the workspace has a
    window list. *)
Theorem setWorkspaceLayoutManager_keeps_entries (env : Env) (w : Workspace) (g : Globals) :
  let r := Dispatcher.setWorkspaceLayoutManager absent options env w g in
  (forall o, Dict.get (ws_num w) (Dispatcher.managers absent g) = Some o ->
             Dispatcher.doutcome absent r = DReturned tt /\
             Dispatcher.dissued absent r = [] /\
             Dispatcher.managers absent (dfinal r) = Dispatcher.managers absent g) /\
  (forall l, Dict.get (ws_num w) (Dispatcher.workspaceWindows absent g) = Some l ->
             Dispatcher.workspaceWindows absent (dfinal r)
             = Dispatcher.workspaceWindows absent g) /\
  (Dispatcher.doutcome absent r = DReturned tt ->
   Dict.mem (ws_num w) (Dispatcher.workspaceWindows absent (dfinal r)) = true).
Proof.
  cbn zeta. unfold Dispatcher.setWorkspaceLayoutManager.
  destruct g as [ms ws]. dunfold. unfold Dict.mem, Dispatcher.install.
  destruct (Dict.get (ws_num w) ms) as [o0|] eqn:Hms; cbn [negb]; cbv beta iota;
    repeat case_bool_decide;
    repeat match goal with
           | |- context [Dispatcher.newAutotiling ?a ?e ?x] =>
               destruct (Dispatcher.newAutotiling a e x) as [[?|?] ?]
           | |- context [Dispatcher.newMasterStack ?a ?o ?e] =>
               destruct (Dispatcher.newMasterStack a o e) as [[?|?] ?]
           end;
    cbv beta iota; cbn [Dispatcher.managers Dispatcher.workspaceWindows];
    destruct (Dict.get (ws_num w) ws) as [l0|] eqn:Hws; cbn [negb]; cbv beta iota;
    unfold Dispatcher.doutcome, Dispatcher.dissued, Dispatcher.dfinal;
    cbn [fst snd Dispatcher.managers Dispatcher.workspaceWindows];
    (split; [|split]);
    try (intros; simplify_eq; by rewrite ?Hws, ?dict_get_set_eq).
Qed.

End DispatcherProperties.

(** ** The dispatcher theorems at work *)

Lemma move_binding_without_manager_raises_witness :
  Dispatcher.onBinding idle_autotiling plain_options env_one "nop swlm move up"
    (Dispatcher.no_globals idle_autotiling) =
  (DRaised AttributeError, Dispatcher.no_globals idle_autotiling, []).
Proof.
  apply (move_binding_without_manager_raises idle_autotiling plain_options
           env_one (Dispatcher.no_globals idle_autotiling)
           "nop swlm move up" workspace_one); reflexivity.
Defined.

Lemma windowCreated_without_window_list_raises_witness :
  let g := Dispatcher.MkGlobals idle_autotiling
             [(1, Dispatcher.MasterStackManager idle_autotiling (init None None))] [] in
  Dispatcher.windowCreated idle_autotiling plain_options env_one g =
  (DRaised AttributeError, g, []).
Proof.
  apply (windowCreated_without_window_list_raises idle_autotiling plain_options
           env_one _ workspace_one (window 11)
           (Dispatcher.MasterStackManager idle_autotiling (init None None)));
    reflexivity.
Defined.

Lemma bindings_reach_the_manager_witness :
  let g := Dispatcher.MkGlobals idle_autotiling
             [(1, Dispatcher.MasterStackManager idle_autotiling
                    (MkManager 3 [11; 2] None None))] [(1, [11; 2; 3])] in
  let r := onBinding "nop swlm swap master" (focused env_one)
             (MkManager 3 [11; 2] None None) in
  Dispatcher.onBinding idle_autotiling plain_options env_one "nop swlm swap master" g =
  (match outcome r with
   | Returned _ => DReturned tt
   | Raised e => DRaised (ManagerError e)
   end,
   Dispatcher.MkGlobals idle_autotiling
     (Dict.set (ws_num workspace_one)
        (Dispatcher.MasterStackManager idle_autotiling (final r))
        (Dispatcher.managers idle_autotiling g))
     (Dispatcher.workspaceWindows idle_autotiling g),
   issued r).
Proof.
  apply (bindings_reach_the_manager idle_autotiling plain_options env_one _
           "nop swlm swap master" workspace_one (MkManager 3 [11; 2] None None));
    try reflexivity.
  apply (bool_decide_unpack _). reflexivity.
Defined.

Lemma layout_bindings_install_managers_witness :
  (forall window ws,
     focused env_one = Some window -> windowWorkspace env_one = Some ws ->
     let r := arrangeExistingLayout (ws_con ws)
                (init (opt_masterWidth plain_options) (opt_stackLayout plain_options)) in
     Dispatcher.onBinding idle_autotiling plain_options env_one
       "nop swlm layout MasterStack" (Dispatcher.no_globals idle_autotiling) =
       (DReturned tt,
        Dispatcher.MkGlobals idle_autotiling
          (Dict.set (ws_num workspace_one)
             (Dispatcher.MasterStackManager idle_autotiling (final r))
             (Dispatcher.managers idle_autotiling (Dispatcher.no_globals idle_autotiling)))
          (Dispatcher.workspaceWindows idle_autotiling
             (Dispatcher.no_globals idle_autotiling)),
        issued r) /\
     exclusive (final r)) /\
  (focused env_one = None ->
   Dispatcher.onBinding idle_autotiling plain_options env_one
     "nop swlm layout MasterStack" (Dispatcher.no_globals idle_autotiling) =
     (DRaised AttributeError, Dispatcher.no_globals idle_autotiling, [])) /\
  Dispatcher.onBinding idle_autotiling plain_options env_one "nop swlm layout none"
    (Dispatcher.no_globals idle_autotiling) =
    (DReturned tt,
     Dispatcher.MkGlobals idle_autotiling
       (Dict.set (ws_num workspace_one) (Dispatcher.NoneManager idle_autotiling)
          (Dispatcher.managers idle_autotiling (Dispatcher.no_globals idle_autotiling)))
       (Dispatcher.workspaceWindows idle_autotiling
          (Dispatcher.no_globals idle_autotiling)),
     []).
Proof.
  apply (layout_bindings_install_managers idle_autotiling plain_options env_one
           (Dispatcher.no_globals idle_autotiling) workspace_one); reflexivity.
Defined.

Lemma windowClosed_reaches_removeWindow_witness :
  let g := Dispatcher.MkGlobals idle_autotiling
             [(1, Dispatcher.MasterStackManager idle_autotiling
                    (MkManager 3 [11; 2] None None))] [(1, [11; 2; 3])] in
  let r := removeWindow 2 (MkManager 3 [11; 2] None None) in
  let windows := Dispatcher.workspaceWindows idle_autotiling g in
  Dispatcher.windowClosed idle_autotiling plain_options env_one 2 g =
  (DReturned tt,
   Dispatcher.MkGlobals idle_autotiling
     (Dict.set (ws_num workspace_one)
        (Dispatcher.MasterStackManager idle_autotiling (final r))
        (Dispatcher.managers idle_autotiling g))
     (match Dict.get (ws_num workspace_one) windows with
      | Some l =>
          match Deque.remove_first 2 l with
          | Some l' => Dict.set (ws_num workspace_one) l' windows
          | None => windows
          end
      | None => windows
      end),
   issued r).
Proof.
  apply (windowClosed_reaches_removeWindow idle_autotiling plain_options env_one _
           workspace_one (MkManager 3 [11; 2] None None) 2); reflexivity.
Defined.

Lemma handlers_touch_the_focused_workspace_only_witness :
  let g := Dispatcher.MkGlobals idle_autotiling
             [(1, Dispatcher.MasterStackManager idle_autotiling
                    (MkManager 3 [11; 2] None None));
              (2, Dispatcher.MasterStackManager idle_autotiling
                    (MkManager 7 [] None None))]
             [(1, [11; 2; 3]); (2, [7])] in
  Dispatcher.untouched idle_autotiling 2 g
    (Dispatcher.dfinal idle_autotiling
       (Dispatcher.windowCreated idle_autotiling plain_options env_one g)) /\
  Dispatcher.untouched idle_autotiling 2 g
    (Dispatcher.dfinal idle_autotiling
       (Dispatcher.windowFocused idle_autotiling plain_options env_one g)) /\
  Dispatcher.untouched idle_autotiling 2 g
    (Dispatcher.dfinal idle_autotiling
       (Dispatcher.windowClosed idle_autotiling plain_options env_one 11 g)) /\
  Dispatcher.untouched idle_autotiling 2 g
    (Dispatcher.dfinal idle_autotiling
       (Dispatcher.onBinding idle_autotiling plain_options env_one
          "nop swlm rotate cw" g)).
Proof.
  apply (handlers_touch_the_focused_workspace_only idle_autotiling plain_options
           env_one _ 2 11 "nop swlm rotate cw").
  intros w [= <-]. discriminate.
Defined.
